(** * APIM delegation function app: a shallow embedding in Rocq

    The development follows the three handlers of the repository
    ([delegation/index.js], [shared/oidc-helper.js],
    [auth-callback/index.js]) together with the parts of the JavaScript
    runtime they rely on: UTF-16 strings and their UTF-8 encoding
    ([Buffer.from] / [toString]), base64, [JSON.stringify] /
    [JSON.parse], the numeric conversions used by [-] and [>], and
    HMAC-SHA512 from Node's [crypto] module. *)

From Stdlib Require Import ZArith String Ascii Lia.
From stdpp Require Import base list gmap.

Open Scope Z_scope.
Set Warnings "-register-all".

(* ------------------------------------------------------------------ *)
(** ** JavaScript strings *)

(** A JavaScript string is its sequence of UTF-16 code units: a
    [list Z] throughout. *)

(** ASCII literal helper: [lit "abc"] is the JavaScript string ['abc']. *)
Definition lit (s : string) : list Z :=
  map (fun a => Z.of_nat (nat_of_ascii a)) (list_ascii_of_string s).

(** JavaScript's [ToBoolean] on an optional string (absent = [undefined]):
    [undefined] and [''] are falsy. *)
Definition truthy_str (s : option (list Z)) : bool :=
  match s with Some (_ :: _) => true | _ => false end.

(** String conversion of an optional query value, as [+] does it:
    [undefined] becomes ['undefined']. *)
Definition js_str (s : option (list Z)) : list Z :=
  match s with Some v => v | None => lit "undefined" end.

(* ------------------------------------------------------------------ *)
(** ** Unicode: UTF-16 and UTF-8 *)

Definition is_scalar (c : Z) : bool :=
  (0 <=? c) && (c <? 1114112) && negb ((55296 <=? c) && (c <=? 57343)).

Definition is_high (u : Z) : bool := (55296 <=? u) && (u <=? 56319).
Definition is_low (u : Z) : bool := (56320 <=? u) && (u <=? 57343).

(** UTF16EncodeCodePoint. *)
Definition utf16_of_cp (c : Z) : list Z :=
  if c <? 65536 then [c]
  else [55296 + (c - 65536) / 1024; 56320 + (c - 65536) mod 1024].

Definition to_utf16 (cs : list Z) : list Z := flat_map utf16_of_cp cs.

(** Code points of a string as ECMAScript's CodePointAt reads them: a
    surrogate pair gives one code point, a lone surrogate gives itself. *)
Fixpoint code_points (s : list Z) : list Z :=
  match s with
  | [] => []
  | u :: r =>
    if is_high u then
      match r with
      | v :: r' =>
        if is_low v then (65536 + (u - 55296) * 1024 + (v - 56320)) :: code_points r'
        else u :: code_points r
      | [] => [u]
      end
    else u :: code_points r
  end.

(** The scalar values [Buffer.from(s, 'utf8')] encodes: as [code_points],
    but a lone surrogate is replaced by U+FFFD. *)
Definition scalar_of_cp (c : Z) : Z :=
  if (55296 <=? c) && (c <=? 57343) then 65533 else c.

Definition utf8_scalars (s : list Z) : list Z := map scalar_of_cp (code_points s).

(** UTF-8 encoding of one scalar value. *)
Definition utf8_of_cp (c : Z) : list Z :=
  if c <? 128 then [c]
  else if c <? 2048 then [192 + c / 64; 128 + c mod 64]
  else if c <? 65536 then [224 + c / 4096; 128 + (c / 64) mod 64; 128 + c mod 64]
  else [240 + c / 262144; 128 + (c / 4096) mod 64; 128 + (c / 64) mod 64; 128 + c mod 64].

Definition utf8_encode (cs : list Z) : list Z := flat_map utf8_of_cp cs.

(** [Buffer.from(s)] (default encoding utf8). *)
Definition buffer_from_string (s : list Z) : list Z := utf8_encode (utf8_scalars s).

Definition cont_byte (b : Z) : bool := (128 <=? b) && (b <=? 191).

(** The WHATWG UTF-8 decoder with replacement, as [buf.toString()] runs
    it: an ill-formed subsequence becomes one U+FFFD and decoding resumes
    at the first byte that broke it. *)
Fixpoint utf8_decode (bs : list Z) : list Z :=
  match bs with
  | [] => []
  | b1 :: r1 =>
    if b1 <? 128 then b1 :: utf8_decode r1
    else if (194 <=? b1) && (b1 <=? 223) then
      match r1 with
      | b2 :: r2 =>
        if cont_byte b2 then ((b1 - 192) * 64 + (b2 - 128)) :: utf8_decode r2
        else 65533 :: utf8_decode r1
      | [] => [65533]
      end
    else if (224 <=? b1) && (b1 <=? 239) then
      let lo := if b1 =? 224 then 160 else 128 in
      let hi := if b1 =? 237 then 159 else 191 in
      match r1 with
      | b2 :: r2 =>
        if (lo <=? b2) && (b2 <=? hi) then
          match r2 with
          | b3 :: r3 =>
            if cont_byte b3
            then (((b1 - 224) * 64 + (b2 - 128)) * 64 + (b3 - 128)) :: utf8_decode r3
            else 65533 :: utf8_decode r2
          | [] => [65533]
          end
        else 65533 :: utf8_decode r1
      | [] => [65533]
      end
    else if (240 <=? b1) && (b1 <=? 244) then
      let lo := if b1 =? 240 then 144 else 128 in
      let hi := if b1 =? 244 then 143 else 191 in
      match r1 with
      | b2 :: r2 =>
        if (lo <=? b2) && (b2 <=? hi) then
          match r2 with
          | b3 :: r3 =>
            if cont_byte b3 then
              match r3 with
              | b4 :: r4 =>
                if cont_byte b4
                then ((((b1 - 240) * 64 + (b2 - 128)) * 64 + (b3 - 128)) * 64 + (b4 - 128))
                       :: utf8_decode r4
                else 65533 :: utf8_decode r3
              | [] => [65533]
              end
            else 65533 :: utf8_decode r2
          | [] => [65533]
          end
        else 65533 :: utf8_decode r1
      | [] => [65533]
      end
    else 65533 :: utf8_decode r1
  end.

(** [buf.toString()] (default encoding utf8). *)
Definition buffer_to_string (bs : list Z) : list Z := to_utf16 (utf8_decode bs).

Example utf8_euro : buffer_from_string [8364] = [226; 130; 172].
Proof. reflexivity. Qed.
Example utf8_pair : buffer_to_string (buffer_from_string [55357; 56832]) = [55357; 56832].
Proof. reflexivity. Qed.
Example utf8_lone : buffer_to_string (buffer_from_string [55296]) = [65533].
Proof. reflexivity. Qed.

(* ------------------------------------------------------------------ *)
(** ** Tactics for bounded integer tests *)

Ltac zlia := Z.div_mod_to_equations; lia.

Ltac zbool_with tac :=
  repeat match goal with
  | |- context [?a <? ?b] =>
      first [ rewrite (proj2 (Z.ltb_lt a b)) by tac
            | rewrite (proj2 (Z.ltb_ge a b)) by tac ]
  | |- context [?a <=? ?b] =>
      first [ rewrite (proj2 (Z.leb_le a b)) by tac
            | rewrite (proj2 (Z.leb_gt a b)) by tac ]
  | |- context [?a =? ?b] =>
      first [ rewrite (proj2 (Z.eqb_eq a b)) by tac
            | rewrite (proj2 (Z.eqb_neq a b)) by tac ]
  end; cbn [andb orb negb].

Ltac zbool := zbool_with lia.

Lemma is_scalar_spec c :
  is_scalar c = true <-> 0 <= c < 1114112 /\ ~ (55296 <= c <= 57343).
Proof.
  unfold is_scalar.
  destruct (Z.leb_spec 0 c), (Z.ltb_spec c 1114112),
           (Z.leb_spec 55296 c), (Z.leb_spec c 57343); cbn; split; intros; lia.
Qed.

Lemma utf8_decode_2 b1 b2 r :
  194 <= b1 <= 223 -> 128 <= b2 <= 191 ->
  utf8_decode (b1 :: b2 :: r) = ((b1 - 192) * 64 + (b2 - 128)) :: utf8_decode r.
Proof.
  intros. remember (b2 :: r) as l eqn:El. cbn [utf8_decode]. zbool.
  subst l. cbv beta iota zeta. unfold cont_byte. zbool. reflexivity.
Qed.

Lemma utf8_decode_3 b1 b2 b3 r :
  224 <= b1 <= 239 -> 128 <= b2 <= 191 -> 128 <= b3 <= 191 ->
  (b1 = 224 -> 160 <= b2) -> (b1 = 237 -> b2 <= 159) ->
  utf8_decode (b1 :: b2 :: b3 :: r)
  = (((b1 - 224) * 64 + (b2 - 128)) * 64 + (b3 - 128)) :: utf8_decode r.
Proof.
  intros. remember (b2 :: b3 :: r) as l eqn:El. cbn [utf8_decode]. zbool.
  subst l. cbv beta iota zeta. unfold cont_byte.
  destruct (Z.eqb_spec b1 224), (Z.eqb_spec b1 237); try lia; zbool; reflexivity.
Qed.

Lemma utf8_decode_4 b1 b2 b3 b4 r :
  240 <= b1 <= 244 -> 128 <= b2 <= 191 -> 128 <= b3 <= 191 -> 128 <= b4 <= 191 ->
  (b1 = 240 -> 144 <= b2) -> (b1 = 244 -> b2 <= 143) ->
  utf8_decode (b1 :: b2 :: b3 :: b4 :: r)
  = ((((b1 - 240) * 64 + (b2 - 128)) * 64 + (b3 - 128)) * 64 + (b4 - 128))
      :: utf8_decode r.
Proof.
  intros. remember (b2 :: b3 :: b4 :: r) as l eqn:El. cbn [utf8_decode]. zbool.
  subst l. cbv beta iota zeta. unfold cont_byte.
  destruct (Z.eqb_spec b1 240), (Z.eqb_spec b1 244); try lia; zbool; reflexivity.
Qed.

Lemma utf8_decode_cp c r :
  is_scalar c = true -> utf8_decode (utf8_of_cp c ++ r) = c :: utf8_decode r.
Proof.
  intros Hc%is_scalar_spec. unfold utf8_of_cp.
  destruct (Z.ltb_spec c 128).
  { cbn [app utf8_decode]. zbool. reflexivity. }
  destruct (Z.ltb_spec c 2048).
  { cbn [app]. rewrite utf8_decode_2 by zlia. f_equal. zlia. }
  destruct (Z.ltb_spec c 65536).
  { cbn [app]. rewrite utf8_decode_3 by zlia. f_equal. zlia. }
  cbn [app]. rewrite utf8_decode_4 by zlia. f_equal. zlia.
Qed.

Lemma utf8_decode_encode cs :
  Forall (fun c => is_scalar c = true) cs -> utf8_decode (utf8_encode cs) = cs.
Proof.
  induction 1 as [|c cs Hc _ IH]; [reflexivity|].
  unfold utf8_encode in *. cbn [flat_map]. rewrite utf8_decode_cp by exact Hc.
  now rewrite IH.
Qed.

Lemma is_high_spec u : is_high u = true <-> 55296 <= u <= 56319.
Proof. unfold is_high. destruct (Z.leb_spec 55296 u), (Z.leb_spec u 56319); cbn; split; intros; lia. Qed.

Lemma is_low_spec u : is_low u = true <-> 56320 <= u <= 57343.
Proof. unfold is_low. destruct (Z.leb_spec 56320 u), (Z.leb_spec u 57343); cbn; split; intros; lia. Qed.

Lemma code_points_cp c r :
  is_scalar c = true -> code_points (utf16_of_cp c ++ r) = c :: code_points r.
Proof.
  intros Hc%is_scalar_spec. unfold utf16_of_cp.
  destruct (Z.ltb_spec c 65536).
  - cbn [app code_points].
    destruct (is_high c) eqn:E; [apply is_high_spec in E; lia | reflexivity].
  - cbn [app code_points].
    rewrite (proj2 (is_high_spec _)) by zlia.
    rewrite (proj2 (is_low_spec _)) by zlia.
    f_equal. zlia.
Qed.

Lemma code_points_to_utf16 cs :
  Forall (fun c => is_scalar c = true) cs -> code_points (to_utf16 cs) = cs.
Proof.
  induction 1 as [|c cs Hc _ IH]; [reflexivity|].
  unfold to_utf16 in *. cbn [flat_map]. rewrite code_points_cp by exact Hc.
  now rewrite IH.
Qed.

Lemma utf8_scalars_to_utf16 cs :
  Forall (fun c => is_scalar c = true) cs -> utf8_scalars (to_utf16 cs) = cs.
Proof.
  intros H. unfold utf8_scalars. rewrite code_points_to_utf16 by exact H.
  induction H as [|c cs Hc _ IH]; [reflexivity|].
  cbn [map]. rewrite IH. f_equal.
  apply is_scalar_spec in Hc. unfold scalar_of_cp.
  destruct (Z.leb_spec 55296 c), (Z.leb_spec c 57343); cbn; lia.
Qed.

(** Every element of a JavaScript string is a 16-bit code unit. *)
Definition units_ok (s : list Z) : Prop := Forall (fun u => 0 <= u < 65536) s.

(** Reading a string's code points and writing them back as UTF-16 gives
    the string back, lone surrogates included. *)
Lemma to_utf16_code_points s : units_ok s -> to_utf16 (code_points s) = s.
Proof.
  remember (length s) as n eqn:En. revert s En.
  induction n as [n IHn] using lt_wf_ind. intros s En Hs.
  destruct s as [|u r]; [reflexivity|].
  apply Forall_cons in Hs as [Hu0 Hr].
  cbn [code_points]. destruct (is_high u) eqn:Hu.
  - apply is_high_spec in Hu. destruct r as [|v r'].
    + cbn. unfold utf16_of_cp. zbool. reflexivity.
    + apply Forall_cons in Hr as [Hv0 Hr'].
      destruct (is_low v) eqn:Hv.
      * apply is_low_spec in Hv. unfold to_utf16 in *. cbn [flat_map].
        rewrite (IHn (length r')) by (cbn in En; lia || reflexivity || assumption).
        unfold utf16_of_cp. zbool. cbn [app]. f_equal; [zlia|f_equal; zlia].
      * unfold to_utf16 in *. cbn [flat_map].
        rewrite (IHn (length (v :: r'))) by (cbn in *; lia || reflexivity || now constructor).
        unfold utf16_of_cp. zbool. reflexivity.
  - unfold to_utf16 in *. cbn [flat_map].
    rewrite (IHn (length r)) by (cbn in *; lia || reflexivity || assumption).
    unfold utf16_of_cp. zbool. reflexivity.
Qed.

Lemma to_utf16_app xs ys : to_utf16 (xs ++ ys) = to_utf16 xs ++ to_utf16 ys.
Proof. unfold to_utf16. apply flat_map_app. Qed.

Lemma utf8_encode_app xs ys : utf8_encode (xs ++ ys) = utf8_encode xs ++ utf8_encode ys.
Proof. unfold utf8_encode. apply flat_map_app. Qed.

(** Decoding the UTF-8 encoding of a well-formed string gives it back. *)
Lemma buffer_roundtrip cs :
  Forall (fun c => is_scalar c = true) cs ->
  buffer_to_string (buffer_from_string (to_utf16 cs)) = to_utf16 cs.
Proof.
  intros H. unfold buffer_to_string, buffer_from_string.
  rewrite utf8_scalars_to_utf16 by exact H. now rewrite utf8_decode_encode.
Qed.

(* ------------------------------------------------------------------ *)
(** ** Base64, as Node's [Buffer] implements it *)

Definition b64_char (n : Z) : Z :=
  if n <? 26 then 65 + n
  else if n <? 52 then 97 + (n - 26)
  else if n <? 62 then 48 + (n - 52)
  else if n =? 62 then 43 else 47.

(** [buf.toString('base64')]: standard alphabet, ['='] padding. *)
Fixpoint base64_encode (bs : list Z) : list Z :=
  match bs with
  | b1 :: b2 :: b3 :: r =>
    [b64_char (b1 / 4); b64_char ((b1 mod 4) * 16 + b2 / 16);
     b64_char ((b2 mod 16) * 4 + b3 / 64); b64_char (b3 mod 64)] ++ base64_encode r
  | [b1; b2] =>
    [b64_char (b1 / 4); b64_char ((b1 mod 4) * 16 + b2 / 16); b64_char ((b2 mod 16) * 4); 61]
  | [b1] => [b64_char (b1 / 4); b64_char ((b1 mod 4) * 16); 61; 61]
  | [] => []
  end.

(** The decoding table of Node's decoder: both the standard and the
    URL-safe alphabet. *)
Definition unbase64 (c : Z) : option Z :=
  if (65 <=? c) && (c <=? 90) then Some (c - 65)
  else if (97 <=? c) && (c <=? 122) then Some (c - 71)
  else if (48 <=? c) && (c <=? 57) then Some (c + 4)
  else if (c =? 43) || (c =? 45) then Some 62
  else if (c =? 47) || (c =? 95) then Some 63
  else None.

(** Node's decoder skips characters outside the table and stops at the
    first ['=']. *)
Fixpoint b64_sextets (s : list Z) : list Z :=
  match s with
  | [] => []
  | c :: r =>
    if c =? 61 then []
    else match unbase64 c with
         | Some v => v :: b64_sextets r
         | None => b64_sextets r
         end
  end.

(** Groups of four sextets give three bytes; a trailing group of two or
    three sextets gives one or two bytes. *)
Fixpoint sextets_to_bytes (xs : list Z) : list Z :=
  match xs with
  | a :: b :: c :: d :: r =>
    [a * 4 + b / 16; (b mod 16) * 16 + c / 4; (c mod 4) * 64 + d] ++ sextets_to_bytes r
  | [a; b; c] => [a * 4 + b / 16; (b mod 16) * 16 + c / 4]
  | [a; b] => [a * 4 + b / 16]
  | _ => []
  end.

(** [Buffer.from(s, 'base64')]. *)
Definition base64_decode (s : list Z) : list Z := sextets_to_bytes (b64_sextets s).

Example base64_abc : base64_encode (lit "abcd") = lit "YWJjZA==".
Proof. reflexivity. Qed.
Example base64_dec : base64_decode (lit "YWJjZA==") = lit "abcd".
Proof. reflexivity. Qed.

Lemma unbase64_char n : 0 <= n < 64 -> unbase64 (b64_char n) = Some n /\ b64_char n <> 61.
Proof.
  intros Hn. unfold b64_char, unbase64.
  destruct (Z.ltb_spec n 26); [zbool; split; [f_equal; lia|lia]|].
  destruct (Z.ltb_spec n 52); [zbool; split; [f_equal; lia|lia]|].
  destruct (Z.ltb_spec n 62); [zbool; split; [f_equal; lia|lia]|].
  destruct (Z.eqb_spec n 62); zbool; split; (reflexivity || f_equal; lia || lia).
Qed.

Lemma b64_sextets_char n r :
  0 <= n < 64 -> b64_sextets (b64_char n :: r) = n :: b64_sextets r.
Proof.
  intros Hn. destruct (unbase64_char n Hn) as [H1 H2]. cbn [b64_sextets].
  rewrite (proj2 (Z.eqb_neq _ _)) by exact H2. now rewrite H1.
Qed.

Definition byte_ok (b : Z) : Prop := 0 <= b < 256.

Lemma base64_roundtrip bs : Forall byte_ok bs -> base64_decode (base64_encode bs) = bs.
Proof.
  unfold base64_decode, byte_ok.
  remember (length bs) as n eqn:En. revert bs En.
  induction n as [n IHn] using lt_wf_ind. intros bs En Hbs.
  destruct bs as [|b1 [|b2 [|b3 r]]].
  - reflexivity.
  - apply Forall_cons in Hbs as [H1 _]. cbn [base64_encode].
    rewrite !b64_sextets_char by zlia. cbn.
    f_equal. zlia.
  - apply Forall_cons in Hbs as [H1 Hbs]. apply Forall_cons in Hbs as [H2 _].
    cbn [base64_encode]. rewrite !b64_sextets_char by zlia. cbn.
    f_equal; [zlia|f_equal; zlia].
  - apply Forall_cons in Hbs as [H1 Hbs]. apply Forall_cons in Hbs as [H2 Hbs].
    apply Forall_cons in Hbs as [H3 Hr].
    cbn [base64_encode app]. rewrite !b64_sextets_char by zlia.
    cbn [sextets_to_bytes app].
    rewrite (IHn (length r)) by (cbn in En; lia || reflexivity || assumption).
    f_equal; [zlia|f_equal; [zlia|f_equal; zlia]].
Qed.

Lemma utf8_encode_bytes cs :
  Forall (fun c => is_scalar c = true) cs -> Forall byte_ok (utf8_encode cs).
Proof.
  induction 1 as [|c cs Hc _ IH]; [constructor|].
  unfold utf8_encode in *. cbn [flat_map]. apply Forall_app. split; [|exact IH].
  apply is_scalar_spec in Hc. unfold utf8_of_cp, byte_ok.
  destruct (Z.ltb_spec c 128); [repeat constructor; lia|].
  destruct (Z.ltb_spec c 2048); [repeat constructor; zlia|].
  destruct (Z.ltb_spec c 65536); repeat constructor; zlia.
Qed.

(* ------------------------------------------------------------------ *)
(** ** JSON values, [JSON.stringify] and [JSON.parse] *)

(** A finite JavaScript number, kept as the decimal [dmant * 10^dexp] it
    was written as.  Rounding to binary64 is not modelled: every number
    the handlers compute with is an integer far below 2^53. *)
Record decimal := mkdec { dmant : Z; dexp : Z }.

Inductive jvalue :=
| JNull
| JBool (b : bool)
| JNum (d : decimal)
| JStr (s : list Z)
| JArr (vs : list jvalue)
| JObj (ms : list (list Z * jvalue)).

Definition hex_digit (d : Z) : Z := if d <? 10 then 48 + d else 87 + d.

Definition unicode_escape (c : Z) : list Z :=
  [92; 117; hex_digit (c / 4096); hex_digit ((c / 256) mod 16);
   hex_digit ((c / 16) mod 16); hex_digit (c mod 16)].

(** QuoteJSONString, one code point at a time (lone surrogates are
    escaped, as in every Node release with well-formed stringify). *)
Definition quote_cp (c : Z) : list Z :=
  if c =? 8 then [92; 98]
  else if c =? 9 then [92; 116]
  else if c =? 10 then [92; 110]
  else if c =? 12 then [92; 102]
  else if c =? 13 then [92; 114]
  else if c =? 34 then [92; 34]
  else if c =? 92 then [92; 92]
  else if (c <? 32) || ((55296 <=? c) && (c <=? 57343)) then unicode_escape c
  else utf16_of_cp c.

Definition json_quote (s : list Z) : list Z :=
  [34] ++ flat_map quote_cp (code_points s) ++ [34].

(** Decimal digits (as characters) of a positive integer. *)
Fixpoint digits_aux (fuel : nat) (n : Z) (acc : list Z) : list Z :=
  match fuel with
  | O => acc
  | S f => if n <=? 0 then acc else digits_aux f (n / 10) (48 + n mod 10 :: acc)
  end.

Definition z_digits (n : Z) : list Z :=
  if n <=? 0 then [48] else digits_aux (S (Z.to_nat (Z.log2 n))) n [].

Fixpoint zeros (k : nat) : list Z :=
  match k with O => [] | S k' => 48 :: zeros k' end.

(** Strip trailing decimal zeros of the mantissa. *)
Fixpoint normalize_aux (fuel : nat) (m e : Z) : Z * Z :=
  match fuel with
  | O => (m, e)
  | S f => if (m mod 10 =? 0) && negb (m =? 0) then normalize_aux f (m / 10) (e + 1) else (m, e)
  end.

(** Number::toString(10) on a decimal value: integers below 10^21 are
    printed in full; other values follow the positional and exponential
    layouts of the algorithm (ECMA-262, Number::toString). *)
Definition number_to_string (d : decimal) : list Z :=
  let m := dmant d in
  let e := dexp d in
  if m =? 0 then [48]
  else if (0 <=? e) && (Z.abs m * 10 ^ e <? 10 ^ 21) then
    (if m <? 0 then [45] else []) ++ z_digits (Z.abs m * 10 ^ e)
  else
    let '(a, e') := normalize_aux (S (Z.to_nat (Z.log2 (Z.abs m)))) (Z.abs m) e in
    let s := z_digits a in
    let k := Z.of_nat (length s) in
    let n := e' + k in
    let body :=
      if (k <=? n) && (n <=? 21) then s ++ zeros (Z.to_nat (n - k))
      else if (0 <? n) && (n <=? 21) then
        firstn (Z.to_nat n) s ++ [46] ++ skipn (Z.to_nat n) s
      else if (-6 <? n) && (n <=? 0) then [48; 46] ++ zeros (Z.to_nat (- n)) ++ s
      else
        let ex := n - 1 in
        let exs := (if ex <? 0 then [45] else [43]) ++ z_digits (Z.abs ex) in
        match s with
        | [d1] => [d1; 101] ++ exs
        | d1 :: rest => [d1; 46] ++ rest ++ [101] ++ exs
        | [] => []
        end in
    (if m <? 0 then [45] else []) ++ body.

Example number_to_string_ex1 : number_to_string (mkdec 1700000000000 0) = lit "1700000000000".
Proof. reflexivity. Qed.
Example number_to_string_ex2 : number_to_string (mkdec (-150) (-2)) = lit "-1.5".
Proof. reflexivity. Qed.
Example number_to_string_ex3 : number_to_string (mkdec 25 (-9)) = lit "2.5e-8".
Proof. reflexivity. Qed.

Fixpoint join (sep : list Z) (xs : list (list Z)) : list Z :=
  match xs with
  | [] => []
  | [x] => x
  | x :: r => x ++ sep ++ join sep r
  end.

(** [JSON.stringify] on a JSON value, without indentation. *)
Fixpoint json_serialize (v : jvalue) : list Z :=
  match v with
  | JNull => [110; 117; 108; 108] (* null *)
  | JBool true => [116; 114; 117; 101] (* true *)
  | JBool false => [102; 97; 108; 115; 101] (* false *)
  | JNum d => number_to_string d
  | JStr s => json_quote s
  | JArr vs => [91] ++ join [44] (map json_serialize vs) ++ [93]
  | JObj ms =>
    [123] ++ join [44] (map (fun kv => json_quote (fst kv) ++ [58] ++ json_serialize (snd kv)) ms)
    ++ [125]
  end.

Definition is_ws (c : Z) : bool := (c =? 32) || (c =? 9) || (c =? 10) || (c =? 13).

Fixpoint skip_ws (s : list Z) : list Z :=
  match s with
  | c :: r => if is_ws c then skip_ws r else s
  | [] => []
  end.

Definition is_digit (c : Z) : bool := (48 <=? c) && (c <=? 57).

Fixpoint take_digits (s : list Z) : list Z * list Z :=
  match s with
  | c :: r => if is_digit c then let '(ds, rest) := take_digits r in (c :: ds, rest) else ([], s)
  | [] => ([], [])
  end.

Definition digits_val (ds : list Z) : Z := fold_left (fun acc d => acc * 10 + (d - 48)) ds 0.

Definition hex_val (c : Z) : option Z :=
  if (48 <=? c) && (c <=? 57) then Some (c - 48)
  else if (97 <=? c) && (c <=? 102) then Some (c - 87)
  else if (65 <=? c) && (c <=? 70) then Some (c - 55)
  else None.

Definition escape_char (e : Z) : option Z :=
  if e =? 34 then Some 34 else if e =? 92 then Some 92 else if e =? 47 then Some 47
  else if e =? 98 then Some 8 else if e =? 102 then Some 12 else if e =? 110 then Some 10
  else if e =? 114 then Some 13 else if e =? 116 then Some 9 else None.

Definition cons_fst {A B} (a : A) (o : option (list A * B)) : option (list A * B) :=
  match o with Some (l, b) => Some (a :: l, b) | None => None end.

(** The characters of a JSON string after its opening quote: the string's
    code units and the text after the closing quote. *)
Fixpoint parse_str_body (s : list Z) : option (list Z * list Z) :=
  match s with
  | [] => None
  | c :: r =>
    if c =? 34 then Some ([], r)
    else if c =? 92 then
      match r with
      | e :: r1 =>
        if e =? 117 then
          match r1 with
          | h1 :: h2 :: h3 :: h4 :: r2 =>
            match hex_val h1, hex_val h2, hex_val h3, hex_val h4 with
            | Some d1, Some d2, Some d3, Some d4 =>
              cons_fst (((d1 * 16 + d2) * 16 + d3) * 16 + d4) (parse_str_body r2)
            | _, _, _, _ => None
            end
          | _ => None
          end
        else match escape_char e with
             | Some u => cons_fst u (parse_str_body r1)
             | None => None
             end
      | [] => None
      end
    else if c <? 32 then None
    else cons_fst c (parse_str_body r)
  end.

(** JSON number grammar: [-? (0 | [1-9][0-9]* ) (. [0-9]+)? ([eE] [+-]? [0-9]+)?]. *)
Definition parse_number (s : list Z) : option (decimal * list Z) :=
  let '(neg, s1) := match s with c :: r => if c =? 45 then (true, r) else (false, s) | [] => (false, s) end in
  let ip :=
    match s1 with
    | c :: r =>
      if c =? 48 then Some ([c], r)
      else if (49 <=? c) && (c <=? 57) then let '(ds, rest) := take_digits r in Some (c :: ds, rest)
      else None
    | [] => None
    end in
  match ip with
  | None => None
  | Some (ids, s2) =>
    let fp :=
      match s2 with
      | c :: r =>
        if c =? 46 then
          let '(ds, rest) := take_digits r in
          match ds with [] => None | _ => Some (ds, rest) end
        else Some ([], s2)
      | [] => Some ([], s2)
      end in
    match fp with
    | None => None
    | Some (fds, s3) =>
      let ep :=
        match s3 with
        | c :: r =>
          if (c =? 101) || (c =? 69) then
            let '(eneg, r1) :=
              match r with
              | x :: r' => if x =? 45 then (true, r') else if x =? 43 then (false, r') else (false, r)
              | [] => (false, r)
              end in
            let '(eds, rest) := take_digits r1 in
            match eds with
            | [] => None
            | _ => Some (if eneg then - digits_val eds else digits_val eds, rest)
            end
          else Some (0, s3)
        | [] => Some (0, s3)
        end in
      match ep with
      | None => None
      | Some (ex, rest) =>
        let m := digits_val (ids ++ fds) in
        Some (mkdec (if neg then - m else m) (ex - Z.of_nat (length fds)), rest)
      end
    end
  end.

Fixpoint strip_prefix (p s : list Z) : option (list Z) :=
  match p, s with
  | [], _ => Some s
  | x :: p', y :: s' => if x =? y then strip_prefix p' s' else None
  | _ :: _, [] => None
  end.

(** The JSON value grammar.  Every call is on a strict suffix of the text
    and takes one unit of [fuel], so [length text + 1] units never run
    out: [fuel] only makes the recursion structural. *)
Fixpoint parse_value (fuel : nat) (s : list Z) {struct fuel} : option (jvalue * list Z) :=
  match fuel with
  | O => None
  | S f =>
    match skip_ws s with
    | [] => None
    | c :: r =>
      if c =? 123 then
        match skip_ws r with
        | x :: r' => if x =? 125 then Some (JObj [], r')
                     else match parse_members f r with
                          | Some (ms, r'') => Some (JObj ms, r'') | None => None end
        | [] => None
        end
      else if c =? 91 then
        match skip_ws r with
        | x :: r' => if x =? 93 then Some (JArr [], r')
                     else match parse_elements f r with
                          | Some (vs, r'') => Some (JArr vs, r'') | None => None end
        | [] => None
        end
      else if c =? 34 then
        match parse_str_body r with Some (b, r') => Some (JStr b, r') | None => None end
      else
        match strip_prefix [116; 114; 117; 101] (c :: r) (* true *) with
        | Some r' => Some (JBool true, r')
        | None =>
          match strip_prefix [102; 97; 108; 115; 101] (c :: r) (* false *) with
          | Some r' => Some (JBool false, r')
          | None =>
            match strip_prefix [110; 117; 108; 108] (c :: r) (* null *) with
            | Some r' => Some (JNull, r')
            | None =>
              match parse_number (c :: r) with
              | Some (d, r') => Some (JNum d, r')
              | None => None
              end
            end
          end
        end
    end
  end
with parse_members (fuel : nat) (s : list Z) {struct fuel}
  : option (list (list Z * jvalue) * list Z) :=
  match fuel with
  | O => None
  | S f =>
    match skip_ws s with
    | c :: r =>
      if c =? 34 then
        match parse_str_body r with
        | Some (k, r1) =>
          match skip_ws r1 with
          | x :: r2 =>
            if x =? 58 then
              match parse_value f r2 with
              | Some (v, r3) =>
                match skip_ws r3 with
                | y :: r4 =>
                  if y =? 44 then
                    match parse_members f r4 with
                    | Some (ms, r5) => Some ((k, v) :: ms, r5)
                    | None => None
                    end
                  else if y =? 125 then Some ([(k, v)], r4)
                  else None
                | [] => None
                end
              | None => None
              end
            else None
          | [] => None
          end
        | None => None
        end
      else None
    | [] => None
    end
  end
with parse_elements (fuel : nat) (s : list Z) {struct fuel} : option (list jvalue * list Z) :=
  match fuel with
  | O => None
  | S f =>
    match parse_value f s with
    | Some (v, r1) =>
      match skip_ws r1 with
      | y :: r2 =>
        if y =? 44 then
          match parse_elements f r2 with
          | Some (vs, r3) => Some (v :: vs, r3)
          | None => None
          end
        else if y =? 93 then Some ([v], r2)
        else None
      | [] => None
      end
    | None => None
    end
  end.

(** [JSON.parse(text)]: [None] when it throws a [SyntaxError]. *)
Definition json_parse (text : list Z) : option jvalue :=
  match parse_value (S (length text)) text with
  | Some (v, r) => match skip_ws r with [] => Some v | _ => None end
  | None => None
  end.

(** Test texts for JSON are written with ['] for the double quote. *)
Definition qlit (s : string) : list Z := map (fun c => if c =? 39 then 34 else c) (lit s).

Example json_parse_obj :
  json_parse (qlit "{ 'a' : [1, -2.5e1, true, null], 'b': 'x\n' }")
  = Some (JObj [(lit "a", JArr [JNum (mkdec 1 0); JNum (mkdec (-25) 0); JBool true; JNull]);
                (lit "b", JStr [120; 10])]).
Proof. reflexivity. Qed.

Lemma hex_val_digit d : 0 <= d < 16 -> hex_val (hex_digit d) = Some d.
Proof.
  intros Hd. unfold hex_digit, hex_val.
  destruct (Z.ltb_spec d 10); zbool; f_equal; lia.
Qed.

Lemma parse_str_quote_cp c t :
  0 <= c < 1114112 ->
  parse_str_body (quote_cp c ++ t)
  = match parse_str_body t with Some (b, r) => Some (utf16_of_cp c ++ b, r) | None => None end.
Proof.
  intros Hc. unfold quote_cp.
  destruct (Z.eqb_spec c 8); [subst; reflexivity|].
  destruct (Z.eqb_spec c 9); [subst; reflexivity|].
  destruct (Z.eqb_spec c 10); [subst; reflexivity|].
  destruct (Z.eqb_spec c 12); [subst; reflexivity|].
  destruct (Z.eqb_spec c 13); [subst; reflexivity|].
  destruct (Z.eqb_spec c 34); [subst; reflexivity|].
  destruct (Z.eqb_spec c 92); [subst; reflexivity|].
  destruct ((c <? 32) || ((55296 <=? c) && (c <=? 57343))) eqn:E.
  - assert (Hc' : 0 <= c < 65536).
    { destruct (Z.ltb_spec c 32), (Z.leb_spec 55296 c), (Z.leb_spec c 57343);
        cbn in E; try discriminate; lia. }
    unfold unicode_escape. cbn [app parse_str_body].
    rewrite !hex_val_digit by zlia. cbn [Z.eqb Pos.eqb].
    unfold utf16_of_cp. zbool. unfold cons_fst.
    destruct (parse_str_body t) as [[b r]|]; [|reflexivity].
    cbn [app]. do 3 f_equal. zlia.
  - assert (Hc' : 32 <= c /\ ~ (55296 <= c <= 57343)).
    { destruct (Z.ltb_spec c 32), (Z.leb_spec 55296 c), (Z.leb_spec c 57343);
        cbn in E; try discriminate; lia. }
    unfold utf16_of_cp. destruct (Z.ltb_spec c 65536).
    + cbn [app parse_str_body]. zbool. unfold cons_fst.
      destruct (parse_str_body t) as [[b r]|]; reflexivity.
    + cbn [app].
      assert (Hhi : 55296 <= 55296 + (c - 65536) / 1024 <= 56319) by zlia.
      assert (Hlo : 56320 <= 56320 + (c - 65536) mod 1024 <= 57343) by zlia.
      generalize dependent (55296 + (c - 65536) / 1024).
      generalize dependent (56320 + (c - 65536) mod 1024). intros lo Hlo hi Hhi.
      cbn [parse_str_body]. zbool. unfold cons_fst.
      destruct (parse_str_body t) as [[b r]|]; reflexivity.
Qed.

Lemma code_points_range s :
  units_ok s -> Forall (fun c => 0 <= c < 1114112) (code_points s).
Proof.
  remember (length s) as n eqn:En. revert s En.
  induction n as [n IHn] using lt_wf_ind. intros s En Hs.
  destruct s as [|u r]; [constructor|].
  apply Forall_cons in Hs as [Hu0 Hr]. cbn [code_points].
  destruct (is_high u) eqn:Hu.
  - destruct r as [|v r']; [repeat constructor; lia|].
    apply Forall_cons in Hr as [Hv0 Hr'].
    destruct (is_low v) eqn:Hv.
    + apply is_high_spec in Hu. apply is_low_spec in Hv. constructor; [lia|].
      apply (IHn (length r')); cbn in *; (lia || reflexivity || assumption).
    + constructor; [lia|].
      apply (IHn (length (v :: r'))); cbn in *; (lia || reflexivity || now constructor).
  - constructor; [lia|]. apply (IHn (length r)); cbn in *; (lia || reflexivity || assumption).
Qed.

(** [JSON.parse] reads back every string [JSON.stringify] writes. *)
Lemma parse_str_quote s t :
  units_ok s -> parse_str_body (flat_map quote_cp (code_points s) ++ 34 :: t) = Some (s, t).
Proof.
  intros Hs. rewrite <- (to_utf16_code_points s Hs) at 2.
  pose proof (code_points_range s Hs) as Hr. unfold to_utf16.
  induction (code_points s) as [|c cs IH]; [reflexivity|].
  apply Forall_cons in Hr as [Hc Hcs]. cbn [flat_map].
  rewrite <- app_assoc, parse_str_quote_cp by exact Hc. now rewrite IH.
Qed.

Lemma digits_val_snoc ds d : digits_val (ds ++ [d]) = digits_val ds * 10 + (d - 48).
Proof. unfold digits_val. now rewrite fold_left_app. Qed.

Lemma digits_aux_spec fuel : forall n acc,
  0 <= n -> (n = 0 \/ Z.log2 n < Z.of_nat fuel) ->
  exists ds, digits_aux fuel n acc = ds ++ acc
    /\ Forall (fun d => is_digit d = true) ds /\ digits_val ds = n
    /\ match ds with [] => n = 0 | d :: _ => 49 <= d <= 57 end.
Proof.
  induction fuel as [|f IH]; intros n acc Hn Hf.
  - exists []. cbn. destruct Hf as [->|Hf]; [repeat split; constructor|].
    pose proof (Z.log2_nonneg n). lia.
  - cbn [digits_aux]. destruct (Z.leb_spec n 0).
    + exists []. repeat split; [constructor|cbn; lia|lia].
    + destruct (IH (n / 10) (48 + n mod 10 :: acc)) as (ds & E & Hd & Hv & Hh).
      { zlia. }
      { destruct (Z.eq_dec (n / 10) 0) as [->|Hne]; [now left|right].
        destruct Hf as [Hf|Hf]; [lia|].
        assert (Z.log2 (2 * (n / 10)) <= Z.log2 n) by (apply Z.log2_le_mono; zlia).
        rewrite Z.log2_double in H0 by zlia. lia. }
      exists (ds ++ [48 + n mod 10]). split; [rewrite E, <- app_assoc; reflexivity|].
      split; [apply Forall_app; split; [exact Hd|]; repeat constructor; unfold is_digit; zbool_with zlia; reflexivity|].
      split; [rewrite digits_val_snoc, Hv; zlia|].
      destruct ds as [|d ds']; [cbn; zlia|exact Hh].
Qed.

Lemma z_digits_spec n :
  0 < n ->
  Forall (fun d => is_digit d = true) (z_digits n) /\ digits_val (z_digits n) = n
  /\ exists d ds, z_digits n = d :: ds /\ 49 <= d <= 57.
Proof.
  intros Hn. unfold z_digits. destruct (Z.leb_spec n 0); [lia|].
  destruct (digits_aux_spec (S (Z.to_nat (Z.log2 n))) n []) as (ds & E & Hd & Hv & Hh).
  { lia. }
  { right. lia. }
  rewrite E, app_nil_r. repeat split; [exact Hd|exact Hv|].
  destruct ds as [|d ds]; [lia|]. eauto.
Qed.

Lemma take_digits_app ds rest :
  Forall (fun d => is_digit d = true) ds ->
  match rest with c :: _ => is_digit c = false | [] => True end ->
  take_digits (ds ++ rest) = (ds, rest).
Proof.
  intros Hd Hr. induction Hd as [|d ds Hd1 _ IH].
  - destruct rest as [|c r]; [reflexivity|]. cbn. now rewrite Hr.
  - cbn [app take_digits]. rewrite Hd1, IH. reflexivity.
Qed.

(** A character that can follow a number in the texts written here. *)
Definition ends_number (rest : list Z) : Prop :=
  match rest with c :: _ => c = 44 \/ c = 125 | [] => False end.

Lemma parse_number_digits n rest :
  0 <= n -> ends_number rest ->
  parse_number (z_digits n ++ rest) = Some (mkdec n 0, rest).
Proof.
  intros Hn Hr. destruct rest as [|c r]; [contradiction|]. cbn in Hr.
  destruct (Z.eqb_spec n 0) as [->|Hn0].
  { destruct Hr as [->| ->]; reflexivity. }
  destruct (z_digits_spec n ltac:(lia)) as (Hd & Hv & d & ds & Ez & Hd1).
  rewrite Ez in *. apply Forall_cons in Hd as [_ Hds].
  unfold parse_number. cbn [app]. zbool.
  rewrite take_digits_app by (exact Hds || (cbn; destruct Hr as [->| ->]; reflexivity)).
  destruct Hr as [->| ->]; cbn -[digits_val]; rewrite app_nil_r, Hv; reflexivity.
Qed.

Lemma parse_number_neg_digits n rest :
  0 < n -> ends_number rest ->
  parse_number (45 :: z_digits n ++ rest) = Some (mkdec (- n) 0, rest).
Proof.
  intros Hn Hr. destruct rest as [|c r]; [contradiction|]. cbn in Hr.
  destruct (z_digits_spec n Hn) as (Hd & Hv & d & ds & Ez & Hd1).
  rewrite Ez in *. apply Forall_cons in Hd as [_ Hds].
  unfold parse_number. cbn [app]. zbool.
  rewrite take_digits_app by (exact Hds || (cbn; destruct Hr as [->| ->]; reflexivity)).
  destruct Hr as [->| ->]; cbn -[digits_val]; rewrite app_nil_r, Hv; reflexivity.
Qed.

Lemma number_to_string_int n :
  Z.abs n < 10 ^ 21 ->
  number_to_string (mkdec n 0) = (if n <? 0 then [45] else []) ++ z_digits (Z.abs n).
Proof.
  intros Hn. unfold number_to_string. cbn [dmant dexp].
  destruct (Z.eqb_spec n 0) as [->|]; [reflexivity|].
  rewrite Z.pow_0_r, Z.mul_1_r. zbool. reflexivity.
Qed.

(** The values the delegation handler writes into its state: strings and
    integers below 10^21. *)
Definition simple_value (v : jvalue) : Prop :=
  match v with
  | JStr s => units_ok s
  | JNum d => dexp d = 0 /\ Z.abs (dmant d) < 10 ^ 21
  | _ => False
  end.

Lemma parse_value_number f c r :
  c = 45 \/ 48 <= c <= 57 ->
  parse_value (S f) (c :: r)
  = match parse_number (c :: r) with Some (d, r') => Some (JNum d, r') | None => None end.
Proof.
  intros Hc. cbn [parse_value skip_ws]. unfold is_ws.
  assert (c <> 32 /\ c <> 9 /\ c <> 10 /\ c <> 13 /\ c <> 123 /\ c <> 91 /\ c <> 34
          /\ c <> 116 /\ c <> 102 /\ c <> 110) by lia.
  zbool. cbv beta iota. cbn [strip_prefix]. zbool. reflexivity.
Qed.

Lemma parse_value_simple f v t :
  simple_value v -> ends_number t -> parse_value (S f) (json_serialize v ++ t) = Some (v, t).
Proof.
  intros Hv Ht. destruct v as [| | [m e] |s| |]; try contradiction.
  - destruct Hv as [He Hm]. cbn in He, Hm. subst e. cbn [json_serialize].
    rewrite number_to_string_int by exact Hm.
    destruct (Z.ltb_spec m 0).
    + destruct (z_digits_spec (Z.abs m) ltac:(lia)) as (_ & _ & d & ds & Ez & Hd).
      cbn [app]. rewrite parse_value_number by lia.
      rewrite parse_number_neg_digits by (lia || exact Ht).
      replace (- Z.abs m) with m by lia. reflexivity.
    + destruct (Z.eqb_spec m 0) as [->|Hm0].
      { destruct t as [|c r]; [contradiction|]. destruct Ht as [->| ->]; reflexivity. }
      destruct (z_digits_spec (Z.abs m) ltac:(lia)) as (_ & _ & d & ds & Ez & Hd).
      rewrite app_nil_l, Ez. cbn [app]. rewrite parse_value_number by lia.
      change (d :: ds ++ t) with ((d :: ds) ++ t). rewrite <- Ez, parse_number_digits by (lia || exact Ht).
      replace (Z.abs m) with m by lia. reflexivity.
  - cbn [json_serialize json_quote]. cbn [app parse_value skip_ws is_ws].
    cbn -[parse_str_body quote_cp code_points].
    rewrite <- app_assoc. cbn [app]. rewrite parse_str_quote by exact Hv. reflexivity.
Qed.

Definition member (kv : list Z * jvalue) : list Z :=
  json_quote (fst kv) ++ [58] ++ json_serialize (snd kv).

Definition simple_member (kv : list Z * jvalue) : Prop :=
  units_ok (fst kv) /\ simple_value (snd kv).

Lemma parse_members_simple ms : forall f rest,
  ms <> [] -> Forall simple_member ms -> (length ms < f)%nat ->
  parse_members f (join [44] (map member ms) ++ 125 :: rest) = Some (ms, rest).
Proof.
  induction ms as [|[k v] ms IH]; intros f rest Hne Hms Hf; [congruence|].
  apply Forall_cons in Hms as [[Hk Hv] Hms].
  destruct f as [|f]; [cbn in Hf; lia|].
  assert (Hj : join [44] (map member ((k, v) :: ms)) ++ 125 :: rest
               = member (k, v) ++ match ms with [] => 125 :: rest
                                 | _ => 44 :: join [44] (map member ms) ++ 125 :: rest end).
  { destruct ms; cbn [map join]; [reflexivity|]. now rewrite <- !app_assoc. }
  rewrite Hj. clear Hj. cbn [fst snd] in Hk, Hv.
  change (member (k, v)) with (json_quote k ++ [58] ++ json_serialize v).
  unfold json_quote. rewrite <- !app_assoc. cbn [app parse_members].
  cbn [skip_ws is_ws Z.eqb Pos.eqb orb]. zbool.
  rewrite parse_str_quote by exact Hk. cbn [skip_ws is_ws Z.eqb Pos.eqb orb]. zbool.
  destruct f as [|f]; [cbn in Hf; lia|].
  rewrite parse_value_simple by (exact Hv || (destruct ms; cbn; auto)).
  destruct ms as [|kv ms'].
  - cbn [skip_ws is_ws Z.eqb Pos.eqb orb]. zbool. reflexivity.
  - cbn [skip_ws is_ws Z.eqb Pos.eqb orb]. zbool.
    rewrite IH by (congruence || exact Hms || (cbn in *; lia)). reflexivity.
Qed.

(** A text made of whole scalar values: its UTF-8 bytes decode back to it. *)
Definition wf_text (s : list Z) : Prop :=
  exists cs, Forall (fun c => is_scalar c = true) cs /\ s = to_utf16 cs.

Lemma wf_app s t : wf_text s -> wf_text t -> wf_text (s ++ t).
Proof.
  intros (cs & Hc & ->) (ds & Hd & ->). exists (cs ++ ds).
  split; [now apply Forall_app|]. now rewrite to_utf16_app.
Qed.

Lemma wf_ascii s : Forall (fun c => 0 <= c < 128) s -> wf_text s.
Proof.
  intros H. exists s. split.
  - eapply Forall_impl; [exact H|]. intros c Hc. cbv beta in Hc. apply (proj2 (is_scalar_spec c)). lia.
  - induction H as [|c s Hc _ IH]; [reflexivity|].
    unfold to_utf16 in *. cbn [flat_map]. rewrite <- IH.
    unfold utf16_of_cp. zbool. reflexivity.
Qed.

Ltac ascii_list := apply wf_ascii; repeat constructor; lia.

Lemma wf_quote_cp c : 0 <= c < 1114112 -> wf_text (quote_cp c).
Proof.
  intros Hc. unfold quote_cp.
  destruct (Z.eqb_spec c 8); [ascii_list|].
  destruct (Z.eqb_spec c 9); [ascii_list|].
  destruct (Z.eqb_spec c 10); [ascii_list|].
  destruct (Z.eqb_spec c 12); [ascii_list|].
  destruct (Z.eqb_spec c 13); [ascii_list|].
  destruct (Z.eqb_spec c 34); [ascii_list|].
  destruct (Z.eqb_spec c 92); [ascii_list|].
  destruct ((c <? 32) || ((55296 <=? c) && (c <=? 57343))) eqn:E.
  - apply wf_ascii. unfold unicode_escape, hex_digit.
    repeat constructor; try lia;
      match goal with |- context [?x <? 10] => destruct (Z.ltb_spec x 10) end; zlia.
  - exists [c]. split; [|unfold to_utf16; cbn; now rewrite app_nil_r].
    constructor; [|constructor]. apply (proj2 (is_scalar_spec c)).
    destruct (Z.ltb_spec c 32), (Z.leb_spec 55296 c), (Z.leb_spec c 57343);
      cbn in E; try discriminate; lia.
Qed.

Lemma wf_json_quote s : units_ok s -> wf_text (json_quote s).
Proof.
  intros Hs. unfold json_quote. pose proof (code_points_range s Hs) as Hr.
  apply wf_app; [ascii_list|]. apply wf_app; [|ascii_list].
  induction Hr as [|c cs Hc _ IH]; [exists []; split; constructor|].
  cbn [flat_map]. apply wf_app; [apply wf_quote_cp; exact Hc|exact IH].
Qed.

Lemma wf_simple_value v : simple_value v -> wf_text (json_serialize v).
Proof.
  destruct v as [| | [m e] |s| |]; try contradiction; intros Hv.
  - destruct Hv as [He Hm]. cbn in He, Hm. subst e. cbn [json_serialize].
    rewrite number_to_string_int by exact Hm. apply wf_app.
    + destruct (m <? 0); ascii_list.
    + destruct (Z.eqb_spec m 0) as [->|Hm0]; [ascii_list|].
      destruct (z_digits_spec (Z.abs m) ltac:(lia)) as (Hd & _).
      apply wf_ascii. eapply Forall_impl; [exact Hd|]. intros c Hc.
      cbv beta in Hc. unfold is_digit in Hc. destruct (Z.leb_spec 48 c), (Z.leb_spec c 57); cbn in Hc;
        try discriminate; lia.
  - exact (wf_json_quote s Hv).
Qed.

Lemma wf_object ms : Forall simple_member ms -> wf_text (json_serialize (JObj ms)).
Proof.
  intros Hms. cbn [json_serialize]. apply wf_app; [ascii_list|]. apply wf_app; [|ascii_list].
  change (fun kv => json_quote (fst kv) ++ [58] ++ json_serialize (snd kv)) with member.
  induction Hms as [|kv ms [Hk Hv] _ IH]; [exists []; split; constructor|].
  assert (Hm : wf_text (member kv)).
  { unfold member. apply wf_app; [exact (wf_json_quote _ Hk)|].
    apply wf_app; [ascii_list|exact (wf_simple_value _ Hv)]. }
  destruct ms as [|kv' ms']; cbn [map join]; [exact Hm|].
  apply wf_app; [exact Hm|]. apply wf_app; [ascii_list|exact IH].
Qed.

Lemma join_members_head ms :
  ms <> [] -> exists t, join [44] (map member ms) = 34 :: t /\ (length ms <= S (length t))%nat.
Proof.
  induction ms as [|kv ms IH]; intros Hne; [congruence|].
  assert (Hm : exists u, member kv = 34 :: u) by (eexists; reflexivity).
  destruct Hm as [u Hu]. destruct ms as [|kv' ms'].
  - exists u. cbn [map join]. rewrite Hu. split; [reflexivity|cbn; lia].
  - destruct (IH ltac:(congruence)) as (t & Ht & Hl).
    exists (u ++ [44] ++ join [44] (map member (kv' :: ms'))).
    change (join [44] (map member (kv :: kv' :: ms')))
      with (member kv ++ [44] ++ join [44] (map member (kv' :: ms'))).
    rewrite Hu. split; [reflexivity|]. rewrite Ht, !length_app. cbn in *. lia.
Qed.

(** [JSON.parse] reads back every object of simple members that
    [JSON.stringify] writes. *)
Lemma json_parse_object ms :
  ms <> [] -> Forall simple_member ms -> json_parse (json_serialize (JObj ms)) = Some (JObj ms).
Proof.
  intros Hne Hms. destruct (join_members_head ms Hne) as (t & Ht & Hl).
  unfold json_parse. cbn [json_serialize].
  change (fun kv => json_quote (fst kv) ++ [58] ++ json_serialize (snd kv)) with member.
  rewrite Ht. cbn [app length parse_value skip_ws is_ws Z.eqb Pos.eqb orb].
  change (34 :: t ++ [125]) with ((34 :: t) ++ [125]). rewrite <- Ht.
  rewrite parse_members_simple by (exact Hne || exact Hms || (cbn [length]; rewrite ?length_app; cbn [length]; lia)).
  reflexivity.
Qed.

(* ------------------------------------------------------------------ *)
(** ** The OAuth state: written by the delegation handler, read back by
    the callback handler *)

(** [{ returnUrl, salt, userId, timestamp: Date.now() }]: the three query
    values may be [undefined] ([None]); [Date.now()] is an integer. *)
Record state_data := mk_state {
  returnUrl : option (list Z);
  salt : option (list Z);
  userId : option (list Z);
  timestamp : Z
}.

(** [JSON.stringify] leaves out a property whose value is [undefined]. *)
Definition opt_member (k : string) (v : option (list Z)) : list (list Z * jvalue) :=
  match v with Some s => [(lit k, JStr s)] | None => [] end.

Definition state_members (sd : state_data) : list (list Z * jvalue) :=
  opt_member "returnUrl" (returnUrl sd) ++ opt_member "salt" (salt sd)
  ++ opt_member "userId" (userId sd) ++ [(lit "timestamp", JNum (mkdec (timestamp sd) 0))].

(** [Buffer.from(JSON.stringify(stateData)).toString('base64')]. *)
Definition encode_state (sd : state_data) : list Z :=
  base64_encode (buffer_from_string (json_serialize (JObj (state_members sd)))).

(** [JSON.parse(Buffer.from(encodedState, 'base64').toString())]:
    [None] when it throws. *)
Definition decode_state (encodedState : list Z) : option jvalue :=
  json_parse (buffer_to_string (base64_decode encodedState)).

(** Property read on a parsed object: the last member with that key wins,
    as [JSON.parse] builds the object; [None] is [undefined]. *)
Fixpoint obj_get (k : list Z) (ms : list (list Z * jvalue)) : option jvalue :=
  match ms with
  | [] => None
  | (k', v) :: r =>
    match obj_get k r with
    | Some x => Some x
    | None => if bool_decide (k = k') then Some v else None
    end
  end.

Definition get_prop (k : string) (v : option jvalue) : option jvalue :=
  match v with Some (JObj ms) => obj_get (lit k) ms | _ => None end.

Definition opt_units_ok (v : option (list Z)) : Prop :=
  match v with Some s => units_ok s | None => True end.

Example encode_state_ex :
  decode_state (encode_state (mk_state (Some (lit "/x")) (Some (lit "s")) None 5))
  = Some (JObj [(lit "returnUrl", JStr (lit "/x")); (lit "salt", JStr (lit "s"));
                (lit "timestamp", JNum (mkdec 5 0))]).
Proof. vm_compute. reflexivity. Qed.

Lemma state_members_simple sd :
  opt_units_ok (returnUrl sd) -> opt_units_ok (salt sd) -> opt_units_ok (userId sd) ->
  Z.abs (timestamp sd) < 10 ^ 21 -> Forall simple_member (state_members sd).
Proof.
  intros H1 H2 H3 H4. unfold state_members.
  assert (Ho : forall k v, opt_units_ok v -> Forall simple_member (opt_member k v)).
  { intros k [s|] Hs; repeat constructor; [|exact Hs].
    unfold units_ok. cbn [fst]. unfold lit. apply Forall_forall. intros x Hx.
    apply list_elem_of_In, in_map_iff in Hx as (a & <- & _). pose proof (nat_ascii_bounded a). lia. }
  apply Forall_app; split; [auto|]. apply Forall_app; split; [auto|].
  apply Forall_app; split; [auto|].
  constructor; [|constructor]. split; [repeat constructor; lia|]. cbn. lia.
Qed.

Lemma decode_encode_state sd :
  opt_units_ok (returnUrl sd) -> opt_units_ok (salt sd) -> opt_units_ok (userId sd) ->
  Z.abs (timestamp sd) < 10 ^ 21 ->
  decode_state (encode_state sd) = Some (JObj (state_members sd)).
Proof.
  intros H1 H2 H3 H4.
  pose proof (state_members_simple sd H1 H2 H3 H4) as Hs.
  destruct (wf_object _ Hs) as (cs & Hcs & Ecs).
  unfold decode_state, encode_state. rewrite Ecs.
  unfold buffer_from_string. rewrite utf8_scalars_to_utf16 by exact Hcs.
  rewrite base64_roundtrip by (apply utf8_encode_bytes; exact Hcs).
  unfold buffer_to_string. rewrite utf8_decode_encode by exact Hcs.
  rewrite <- Ecs. apply json_parse_object; [|exact Hs].
  unfold state_members. destruct (returnUrl sd), (salt sd), (userId sd); discriminate.
Qed.

(* ------------------------------------------------------------------ *)
(** ** SHA-512 and HMAC-SHA512 (FIPS 180-4, RFC 2104), as
    [crypto.createHmac('sha512', key)] computes them *)

Module SHA512.

Definition w64 (x : Z) : Z := x mod 2 ^ 64.

Definition rotr (x : Z) (n : Z) : Z := Z.lor (Z.shiftr x n) (w64 (Z.shiftl x (64 - n))).

Definition Ch (x y z : Z) : Z := Z.lxor (Z.land x y) (Z.land (Z.lxor x (2 ^ 64 - 1)) z).
Definition Maj (x y z : Z) : Z := Z.lxor (Z.lxor (Z.land x y) (Z.land x z)) (Z.land y z).
Definition Sigma0 (x : Z) : Z := Z.lxor (Z.lxor (rotr x 28) (rotr x 34)) (rotr x 39).
Definition Sigma1 (x : Z) : Z := Z.lxor (Z.lxor (rotr x 14) (rotr x 18)) (rotr x 41).
Definition sigma0 (x : Z) : Z := Z.lxor (Z.lxor (rotr x 1) (rotr x 8)) (Z.shiftr x 7).
Definition sigma1 (x : Z) : Z := Z.lxor (Z.lxor (rotr x 19) (rotr x 61)) (Z.shiftr x 6).

(** The constants are the first 64 fractional bits of the cube roots of
    the first 80 primes and of the square roots of the first 8. *)
Fixpoint icbrt_aux (fuel : nat) (n lo hi : Z) : Z :=
  match fuel with
  | O => lo
  | S f =>
    if hi - lo <=? 1 then lo
    else let mid := (lo + hi) / 2 in
         if mid * mid * mid <=? n then icbrt_aux f n mid hi else icbrt_aux f n lo mid
  end.

Definition icbrt (n : Z) : Z := icbrt_aux 300 n 0 (n + 1).

Definition is_prime (p : Z) : bool :=
  (2 <=? p) && forallb (fun d => negb (p mod d =? 0)) (map Z.of_nat (seq 2 (Z.to_nat p - 2))).

Definition primes (n : nat) : list Z :=
  firstn n (filter is_prime (map Z.of_nat (seq 0 420))).

Definition K : list Z :=
  Eval vm_compute in map (fun p => w64 (icbrt (p * 2 ^ 192))) (primes 80).

Definition H0 : list Z :=
  Eval vm_compute in map (fun p => w64 (Z.sqrt (p * 2 ^ 128))) (primes 8).

Example K_first : firstn 2 K = [0x428a2f98d728ae22; 0x7137449123ef65cd].
Proof. reflexivity. Qed.
Example H0_first : firstn 1 H0 = [0x6a09e667f3bcc908].
Proof. reflexivity. Qed.

(** Big-endian bytes of a word and back. *)
Definition be_bytes (n : nat) (x : Z) : list Z :=
  map (fun i => (x / 2 ^ (8 * (Z.of_nat n - 1 - Z.of_nat i))) mod 256) (seq 0 n).

Definition be_word (bs : list Z) : Z := fold_left (fun acc b => acc * 256 + b) bs 0.

Fixpoint words (fuel : nat) (bs : list Z) : list Z :=
  match fuel with
  | O => []
  | S f => match bs with [] => [] | _ => be_word (firstn 8 bs) :: words f (skipn 8 bs) end
  end.

(** Padding: [0x80], zeros, and the bit length as 128 bits. *)
Definition pad (msg : list Z) : list Z :=
  let l := length msg in
  let k := (Z.to_nat ((111 - Z.of_nat l) mod 128)) in
  msg ++ [128] ++ repeat 0 k ++ be_bytes 16 (8 * Z.of_nat l).

Fixpoint schedule (fuel : nat) (w : list Z) : list Z :=
  match fuel with
  | O => w
  | S f =>
    let t := length w in
    let wt := w64 (sigma1 (nth (t - 2) w 0) + nth (t - 7) w 0
                   + sigma0 (nth (t - 15) w 0) + nth (t - 16) w 0) in
    schedule f (w ++ [wt])
  end.

Definition round (st : list Z) (kw : Z * Z) : list Z :=
  match st with
  | [a; b; c; d; e; f; g; h] =>
    let T1 := w64 (h + Sigma1 e + Ch e f g + fst kw + snd kw) in
    let T2 := w64 (Sigma0 a + Maj a b c) in
    [w64 (T1 + T2); a; b; c; w64 (d + T1); e; f; g]
  | _ => st
  end.

Definition compress (hs : list Z) (block : list Z) : list Z :=
  let w := schedule 64 (words 16 block) in
  let st := fold_left round (combine K w) hs in
  map (fun p => w64 (fst p + snd p)) (combine hs st).

Fixpoint blocks (fuel : nat) (bs : list Z) : list (list Z) :=
  match fuel with
  | O => []
  | S f => match bs with [] => [] | _ => firstn 128 bs :: blocks f (skipn 128 bs) end
  end.

Definition sha512 (msg : list Z) : list Z :=
  let p := pad msg in
  flat_map (be_bytes 8) (fold_left compress (blocks (length p) p) H0).

End SHA512.

Definition hash_block : nat := 128.

(** HMAC: a key longer than the block is hashed first, then padded with
    zeros to the block size. *)
Definition hmac_sha512 (key msg : list Z) : list Z :=
  let k := if (hash_block <? length key)%nat then SHA512.sha512 key else key in
  let k' := k ++ repeat 0 (hash_block - length k) in
  let ipad := map (Z.lxor 54) k' in
  let opad := map (Z.lxor 92) k' in
  SHA512.sha512 (opad ++ SHA512.sha512 (ipad ++ msg)).

Definition hex_of (bs : list Z) : list Z := flat_map (fun b => [hex_digit (b / 16); hex_digit (b mod 16)]) bs.

Example sha512_abc :
  hex_of (SHA512.sha512 (lit "abc")) = lit "ddaf35a193617abacc417349ae20413112e6fa4e89a97ea20a9eeee64b55d39a2192992a274fc1a836ba3c23a3feebbd454d4423643ce80e2a9ac94fa54ca49f".
Proof. vm_compute. reflexivity. Qed.

Example hmac_rfc4231_2 :
  hex_of (hmac_sha512 (lit "Jefe") (lit "what do ya want for nothing?"))
  = lit "164b7a7bfcf819e2e395fbe73b56e0a387bd64222e831fd610270cd7ea2505549758bf75c05a994a6d034f65f8f0e6fdcaeab1a34d4a6b4b636e070a38bce737".
Proof. vm_compute. reflexivity. Qed.

Example hmac_rfc4231_6 :
  hex_of (hmac_sha512 (repeat 170 131) (lit "Test Using Larger Than Block-Size Key - Hash Key First"))
  = lit "80b24263c7c1a3ebb71493c1dd7be8b49b46d1f41b4aeec1121b013783f8f3526b56d037e05f2598bd0fd2215d6a1e5295e64f73f63f0aec8b915a985d786598".
Proof. vm_compute. reflexivity. Qed.

(* ------------------------------------------------------------------ *)
(** ** JavaScript conversions of parsed JSON values *)

Definition has_own (k : string) (ms : list (list Z * jvalue)) : bool :=
  match obj_get (lit k) ms with Some _ => true | None => false end.

(** [ToString] (as [String(v)], a template literal or [searchParams.set]
    apply it) on a value [JSON.parse] built; [None] is the [TypeError] of
    an object whose own [toString] member is not callable.  Numbers are
    printed from the decimal [JSON.parse] read: binary64 rounding is not
    modelled. *)
Fixpoint js_to_string (v : jvalue) : option (list Z) :=
  match v with
  | JNull => Some (lit "null")
  | JBool true => Some (lit "true")
  | JBool false => Some (lit "false")
  | JNum d => Some (number_to_string d)
  | JStr s => Some s
  | JArr vs =>
    (* Array.prototype.join: null elements print as the empty string *)
    let fix go (vs : list jvalue) : option (list (list Z)) :=
      match vs with
      | [] => Some []
      | x :: r =>
        match (match x with JNull => Some [] | _ => js_to_string x end), go r with
        | Some a, Some b => Some (a :: b)
        | _, _ => None
        end
      end in
    match go vs with Some xs => Some (join [44] xs) | None => None end
  | JObj ms => if has_own "toString" ms then None else Some (lit "[object Object]")
  end.

(** [ToString] of a possibly [undefined] value. *)
Definition js_to_string_opt (v : option jvalue) : option (list Z) :=
  match v with Some x => js_to_string x | None => Some (lit "undefined") end.

(** ToBoolean. *)
Definition js_truthy (v : option jvalue) : bool :=
  match v with
  | None | Some JNull | Some (JBool false) => false
  | Some (JNum d) => negb (dmant d =? 0)
  | Some (JStr s) => match s with [] => false | _ => true end
  | _ => true
  end.


(** Property read [v.k]: [Val None] is [undefined]; reading a property
    of [null] or [undefined] throws a [TypeError] ([TypeErr]). *)
Inductive read := Val (v : option jvalue) | TypeErr.

Definition prop (v : option jvalue) (k : string) : read :=
  match v with
  | None | Some JNull => TypeErr
  | Some (JObj ms) => Val (obj_get (lit k) ms)
  | Some _ => Val None
  end.

(* ------------------------------------------------------------------ *)
(** ** URLs and [URLSearchParams] *)

(** A parsed URL: everything before the query, the query as
    [URLSearchParams] holds it, and the fragment. *)
Record url := mk_url { url_head : list Z; url_query : list (list Z * list Z); url_hash : list Z }.

Definition hex_upper (d : Z) : Z := if d <? 10 then 48 + d else 55 + d.

(** application/x-www-form-urlencoded byte serializer. *)
Definition form_byte (b : Z) : list Z :=
  if b =? 32 then [43]
  else if (b =? 42) || (b =? 45) || (b =? 46) || (b =? 95) || ((48 <=? b) && (b <=? 57))
          || ((65 <=? b) && (b <=? 90)) || ((97 <=? b) && (b <=? 122)) then [b]
  else [37; hex_upper (b / 16); hex_upper (b mod 16)].

Definition form_encode (s : list Z) : list Z := flat_map form_byte (buffer_from_string s).

Definition form_serialize (q : list (list Z * list Z)) : list Z :=
  join [38] (map (fun p => form_encode (fst p) ++ [61] ++ form_encode (snd p)) q).

(** [url.toString()]. *)
Definition url_to_string (u : url) : list Z :=
  url_head u ++ match url_query u with [] => [] | q => 63 :: form_serialize q end ++ url_hash u.

(** [searchParams.set(name, value)]: the first pair named [name] takes the
    value and the later ones go; without one the pair is appended. *)
Fixpoint set_first (name value : list Z) (q : list (list Z * list Z)) : list (list Z * list Z) :=
  match q with
  | [] => []
  | (n, v) :: r =>
    if bool_decide (n = name) then (n, value) :: filter (fun p => fst p <> name) r
    else (n, v) :: set_first name value r
  end.

Definition params_set (name value : list Z) (u : url) : url :=
  mk_url (url_head u)
    (if existsb (fun p => bool_decide (fst p = name)) (url_query u)
     then set_first name value (url_query u) else url_query u ++ [(name, value)])
    (url_hash u).

(* ------------------------------------------------------------------ *)
(** ** Effects: the discovery cache, the clock and the network *)

Record request := mk_request { req_method : list Z; req_url : list Z; req_body : list Z }.

(** What a request comes back with: a network error, or a status and the
    body read as a string. *)
Inductive net_result := NetError | Response (status : Z) (body : list Z).

Record oidc_endpoints := mk_endpoints {
  authorization_endpoint : option jvalue;
  token_endpoint : option jvalue;
  userinfo_endpoint : option jvalue;
  end_session_endpoint : option jvalue;
  ep_issuer : option jvalue  (* [issuer] *)
}.

Record cache_entry := mk_entry { endpoints : oidc_endpoints; entry_timestamp : Z }.

(** The module-level [discoveryCache], [Date.now()] and the requests sent so far. *)
Record world := mk_world {
  discoveryCache : gmap (list Z) cache_entry;
  clock : Z;
  requests : list request
}.

Inductive outcome (A : Type) := Ok (a : A) | Throw.
Arguments Ok {A} a.
Arguments Throw {A}.

(** An async function: it resolves or rejects, and changes the world. *)
Definition M (A : Type) : Type := world -> outcome A * world.

#[global] Instance M_ret : MRet M := fun A a w => (Ok a, w).
#[global] Instance M_bind : MBind M := fun A B f m w =>
  match m w with (Ok a, w') => f a w' | (Throw, w') => (Throw, w') end.

Definition throw {A} : M A := fun w => (Throw, w).

(** [try { m } catch { h }]. *)
Definition try_catch {A} (m : M A) (h : M A) : M A := fun w =>
  match m w with (Throw, w') => h w' | r => r end.

Definition Date_now : M Z := fun w => (Ok (clock w), w).

Definition cache_get (k : list Z) : M (option cache_entry) := fun w =>
  (Ok (discoveryCache w !! k), w).

Definition cache_set (k : list Z) (e : cache_entry) : M unit := fun w =>
  (Ok tt, mk_world (<[k := e]> (discoveryCache w)) (clock w) (requests w)).

Definition of_read (r : read) : M (option jvalue) :=
  match r with Val v => mret v | TypeErr => throw end.

Definition of_option {A} (o : option A) : M A :=
  match o with Some a => mret a | None => throw end.

(* ------------------------------------------------------------------ *)
(** ** The functions of the app, over [process.env], the network and the
    WHATWG URL parser *)

Section Handlers.

(** [process.env]. *)
Variable env : string -> option (list Z).
(** The network: the answer to a request (given the requests sent
    before it) and the milliseconds it took. *)
Variable net : list request -> request -> net_result * Z.
(** [new URL(input, base)]: [None] when it throws. *)
Variable url_parse : list Z -> option (list Z) -> option url.

(** Sending a request: it is logged, and the clock moves on. *)
Definition send (r : request) : M net_result := fun w =>
  let '(res, dt) := net (requests w) r in
  (Ok res, mk_world (discoveryCache w) (clock w + dt) (requests w ++ [r])).

(** [process.env.NAME || dflt]. *)
Definition env_or (name : string) (dflt : list Z) : list Z :=
  match env name with Some (c :: s) => c :: s | _ => dflt end.

(* --- src/shared/oidc-helper.js --- *)

Definition CACHE_TTL : Z := 3600000.

Record oidc_config := mk_oidc_config {
  oc_issuer : list Z;  (* [issuer] *)
  clientId : list Z;
  clientSecret : list Z;
  redirectUri : list Z;
  oc_endpoints : oidc_endpoints  (* [endpoints] *)
}.

(** [getOidcConfig()]: the four settings, or it throws. *)
Definition getOidcConfig : M (list Z * list Z * list Z * list Z) :=
  match env "OIDC_ISSUER", env "OIDC_CLIENT_ID", env "OIDC_CLIENT_SECRET", env "OIDC_REDIRECT_URI" with
  | Some (i :: is), Some (c :: cs), Some (s :: ss), Some (r :: rs) =>
    mret (i :: is, c :: cs, s :: ss, r :: rs)
  | _, _, _, _ => throw
  end.

(** [httpsGet(url)]: an invalid URL rejects before anything is sent; a
    network error, a status outside 2xx or a body [JSON.parse] refuses
    rejects. *)
Definition httpsGet (u : list Z) : M jvalue :=
  match url_parse u None with
  | None => throw
  | Some _ =>
    r ← send (mk_request (lit "GET") u []);
    match r with
    | NetError => throw
    | Response st body =>
      if (200 <=? st) && (st <? 300) then of_option (json_parse body) else throw
    end
  end.

(** The endpoint set read off a discovery document. *)
Definition endpoints_of (config : jvalue) : M oidc_endpoints :=
  a ← of_read (prop (Some config) "authorization_endpoint");
  t ← of_read (prop (Some config) "token_endpoint");
  u ← of_read (prop (Some config) "userinfo_endpoint");
  e ← of_read (prop (Some config) "end_session_endpoint");
  i ← of_read (prop (Some config) "issuer");
  mret (mk_endpoints a t u e i).

(** The catch branch: the issuer and the configured (or conventional) paths. *)
Definition fallback_endpoints (issuer : list Z) : oidc_endpoints :=
  let authPath := env_or "OIDC_AUTHORIZATION_ENDPOINT" (lit "/oauth2/authorize") in
  let tokenPath := env_or "OIDC_TOKEN_ENDPOINT" (lit "/oauth2/token") in
  let userinfoPath := env_or "OIDC_USERINFO_ENDPOINT" (lit "/oauth2/userinfo") in
  let logoutPath := env "OIDC_END_SESSION_ENDPOINT" in
  mk_endpoints (Some (JStr (issuer ++ authPath))) (Some (JStr (issuer ++ tokenPath)))
    (Some (JStr (issuer ++ userinfoPath)))
    (match logoutPath with Some (c :: s) => Some (JStr (issuer ++ c :: s)) | _ => None end)
    (Some (JStr issuer)).

Definition discover_fetch (issuer : list Z) : M oidc_endpoints :=
  try_catch
    (config ← httpsGet (issuer ++ lit "/.well-known/openid-configuration");
     eps ← endpoints_of config;
     t ← Date_now;
     _ ← cache_set issuer (mk_entry eps t);
     mret eps)
    (mret (fallback_endpoints issuer)).

Definition discoverOidcEndpoints (issuer : list Z) : M oidc_endpoints :=
  cached ← cache_get issuer;
  match cached with
  | Some c =>
    t ← Date_now;
    if t - entry_timestamp c <? CACHE_TTL then mret (endpoints c) else discover_fetch issuer
  | None => discover_fetch issuer
  end.

Definition getOidcConfiguration : M oidc_config :=
  '(i, c, s, r) ← getOidcConfig;
  eps ← discoverOidcEndpoints i;
  mret (mk_oidc_config i c s r eps).

(** [buildAuthorizationUrl(oidcConfig, state)] with the default scopes;
    the template literal converts the endpoint with [ToString]. *)
Definition buildAuthorizationUrl (oc : oidc_config) (state : list Z) : M (list Z) :=
  ae ← of_option (js_to_string_opt (authorization_endpoint (oc_endpoints oc)));
  mret (ae ++ [63] ++ form_serialize
          [(lit "client_id", clientId oc); (lit "response_type", lit "code");
           (lit "scope", lit "openid profile email"); (lit "redirect_uri", redirectUri oc);
           (lit "state", state)]).

(** [validateOidcConfig()]: whether [getOidcConfig()] throws. *)
Definition validateOidcConfig : M bool :=
  try_catch (_ ← getOidcConfig; mret true) (mret false).

(** [clearDiscoveryCache()]. *)
Definition clearDiscoveryCache : M unit := fun w =>
  (Ok tt, mk_world ∅ (clock w) (requests w)).

(* --- src/unnamed/part_004: the delegation endpoint --- *)

(** [context.res]: the status, the [Location] header and the [error]
    member of the JSON body. *)
Record response := mk_response {
  status : Z;
  location : option (list Z);
  error : option (list Z)
}.

Definition redirect (u : list Z) : response := mk_response 302 (Some u) None.
Definition fail_with (st : Z) (msg : string) : response := mk_response st None (Some (lit msg)).

(** [operation === 'name']. *)
Definition is_op (operation : option (list Z)) (name : string) : bool :=
  bool_decide (operation = Some (lit name)).

(** The [switch] of [validateApimSignature]: the string to sign, [None]
    for the [default] branch. *)
Definition string_to_sign (operation salt returnUrl userId : option (list Z)) : option (list Z) :=
  if is_op operation "SignIn" || is_op operation "SignUp" then
    Some (js_str salt ++ [10] ++ js_str returnUrl)
  else if is_op operation "ChangePassword" || is_op operation "ChangeProfile"
          || is_op operation "CloseAccount" || is_op operation "SignOut" then
    Some (js_str salt ++ [10] ++ js_str userId)
  else None.

(** [hmac.update(stringToSign, 'utf8').digest('base64')] under the
    base64-decoded key. *)
Definition computed_signature (key stringToSign : list Z) : list Z :=
  base64_encode (hmac_sha512 (base64_decode key) (buffer_from_string stringToSign)).

Definition validateApimSignature (operation salt returnUrl userId signature : option (list Z)) : bool :=
  if negb (truthy_str (env "APIM_VALIDATION_KEY")) || negb (truthy_str signature) then false
  else match string_to_sign operation salt returnUrl userId with
       | None => false
       | Some sts =>
         bool_decide (computed_signature (js_str (env "APIM_VALIDATION_KEY")) sts = js_str signature)
       end.

(** The delegation handler on [req.query]. *)
Definition delegation (query : string -> option (list Z)) : M response :=
  let operation := query "operation"%string in
  let userId := query "userId"%string in
  let salt := query "salt"%string in
  let returnUrl := query "returnUrl"%string in
  let signature := query "sig"%string in
  try_catch
    (if negb (validateApimSignature operation salt returnUrl userId signature) then
       mret (fail_with 401 "Invalid signature")
     else if is_op operation "SignIn" then
       oc ← try_catch (c ← getOidcConfiguration; mret (Some c)) (mret None);
       match oc with
       | None => mret (fail_with 500 "Server configuration error")
       | Some c =>
         t ← Date_now;
         let encodedState := encode_state (mk_state returnUrl salt userId t) in
         authUrl ← buildAuthorizationUrl c encodedState;
         mret (redirect authUrl)
       end
     else mret (fail_with 400 "Unsupported operation"))
    (mret (fail_with 500 "Internal server error")).

(* --- src/delegation/index.js: the delegation endpoint, Okta version --- *)

(** The handler of [src/delegation/index.js]: the same signature check,
    and a SignIn that builds the Okta authorization URL from [OKTA_*]
    settings without any discovery. *)
Definition okta_delegation (query : string -> option (list Z)) : M response :=
  let operation := query "operation"%string in
  let userId := query "userId"%string in
  let salt := query "salt"%string in
  let returnUrl := query "returnUrl"%string in
  let signature := query "sig"%string in
  try_catch
    (if negb (validateApimSignature operation salt returnUrl userId signature) then
       mret (fail_with 401 "Invalid signature")
     else if is_op operation "SignIn" then
       if negb (truthy_str (env "OKTA_ISSUER")) || negb (truthy_str (env "OKTA_CLIENT_ID"))
          || negb (truthy_str (env "OKTA_REDIRECT_URI")) then
         mret (fail_with 500 "Server configuration error")
       else
         t ← Date_now;
         let encodedState := encode_state (mk_state returnUrl salt userId t) in
         let authParams :=
           [(lit "client_id", js_str (env "OKTA_CLIENT_ID")); (lit "response_type", lit "code");
            (lit "scope", lit "openid profile email"); (lit "redirect_uri", js_str (env "OKTA_REDIRECT_URI"));
            (lit "state", encodedState)] in
         mret (redirect (js_str (env "OKTA_ISSUER") ++ lit "/v1/authorize?" ++ form_serialize authParams))
     else mret (fail_with 400 "Unsupported operation"))
    (mret (fail_with 500 "Internal server error")).

(* --- src/auth-callback/index.js: conversions and string helpers --- *)

(** A JavaScript number: binary64 rounding is not modelled, a finite
    value is kept as the decimal it was written as. *)
Inductive jsnum := NaN | PosInf | NegInf | Fin (d : decimal).

(** StrWhiteSpaceChar: WhiteSpace and LineTerminator. *)
Definition is_js_space (c : Z) : bool :=
  (c =? 9) || (c =? 10) || (c =? 11) || (c =? 12) || (c =? 13) || (c =? 32) || (c =? 160)
  || (c =? 5760) || ((8192 <=? c) && (c <=? 8202)) || (c =? 8232) || (c =? 8233)
  || (c =? 8239) || (c =? 8287) || (c =? 12288) || (c =? 65279).

Fixpoint drop_space (s : list Z) : list Z :=
  match s with c :: r => if is_js_space c then drop_space r else s | [] => [] end.

Definition trim (s : list Z) : list Z := rev (drop_space (rev (drop_space s))).

Definition radix_digit (radix c : Z) : option Z :=
  let v := if (48 <=? c) && (c <=? 57) then c - 48
           else if (97 <=? c) && (c <=? 122) then c - 87
           else if (65 <=? c) && (c <=? 90) then c - 55 else 36 in
  if v <? radix then Some v else None.

Fixpoint radix_value (radix acc : Z) (s : list Z) : option Z :=
  match s with
  | [] => Some acc
  | c :: r => match radix_digit radix c with Some v => radix_value radix (acc * radix + v) r | None => None end
  end.

(** NonDecimalIntegerLiteral: [0b], [0o], [0x] and at least one digit. *)
Definition non_decimal (s : list Z) : option Z :=
  match s with
  | 48 :: x :: ((_ :: _) as r) =>
    let radix := if (x =? 98) || (x =? 66) then 2 else if (x =? 111) || (x =? 79) then 8
                 else if (x =? 120) || (x =? 88) then 16 else 0 in
    if radix =? 0 then None else radix_value radix 0 r
  | _ => None
  end.

(** StrUnsignedDecimalLiteral without [Infinity]. *)
Definition unsigned_decimal (s : list Z) : option decimal :=
  let '(ids, r1) := take_digits s in
  let '(fds, r2) := match r1 with 46 :: r => take_digits r | _ => ([], r1) end in
  let dot := match r1 with 46 :: _ => true | _ => false end in
  match ids ++ fds with
  | [] => None
  | ds =>
    let e := match r2 with
             | [] => Some 0
             | x :: r =>
               if (x =? 101) || (x =? 69) then
                 let '(eneg, r') := match r with
                                    | 45 :: r' => (true, r') | 43 :: r' => (false, r') | _ => (false, r) end in
                 match take_digits r' with
                 | ((_ :: _) as eds, []) => Some (if eneg then - digits_val eds else digits_val eds)
                 | _ => None
                 end
               else None
             end in
    match e with
    | Some ex => Some (mkdec (digits_val ds) (ex - Z.of_nat (if dot then length fds else 0)))
    | None => None
    end
  end.

(** StringToNumber. *)
Definition string_to_number (s : list Z) : jsnum :=
  let t := trim s in
  match t with
  | [] => Fin (mkdec 0 0)
  | _ =>
    match non_decimal t with
    | Some n => Fin (mkdec n 0)
    | None =>
      let '(neg, u) := match t with 45 :: u => (true, u) | 43 :: u => (false, u) | _ => (false, t) end in
      if bool_decide (u = lit "Infinity") then (if neg then NegInf else PosInf)
      else match unsigned_decimal u with
           | Some d => Fin (if neg then mkdec (- dmant d) (dexp d) else d)
           | None => NaN
           end
    end
  end.

(** ToNumber on a possibly [undefined] value; [None] is a [TypeError]. *)
Definition to_number (v : option jvalue) : option jsnum :=
  match v with
  | None => Some NaN
  | Some JNull => Some (Fin (mkdec 0 0))
  | Some (JBool b) => Some (Fin (mkdec (if b then 1 else 0) 0))
  | Some (JNum d) => Some (Fin d)
  | Some (JStr s) => Some (string_to_number s)
  | Some x => match js_to_string x with Some s => Some (string_to_number s) | None => None end
  end.

(** [Date.now() - n > 600000]. *)
Definition expired (now : Z) (n : jsnum) : bool :=
  match n with
  | NaN | PosInf => false
  | NegInf => true
  | Fin (mkdec m e) =>
    if 0 <=? e then 600000 <? now - m * 10 ^ e
    else 600000 * 10 ^ (- e) <? now * 10 ^ (- e) - m
  end.

(** [new Date(t).toISOString()]; [None] is the [RangeError] of a time
    value out of range. *)
Definition pad_digits (k : nat) (n : Z) : list Z :=
  let ds := z_digits n in zeros (k - length ds) ++ ds.

Definition civil_from_days (z0 : Z) : Z * Z * Z :=
  let z := z0 + 719468 in
  let era := z / 146097 in
  let doe := z - era * 146097 in
  let yoe := (doe - doe / 1460 + doe / 36524 - doe / 146096) / 365 in
  let doy := doe - (365 * yoe + yoe / 4 - yoe / 100) in
  let mp := (5 * doy + 2) / 153 in
  let d := doy - (153 * mp + 2) / 5 + 1 in
  let m := if mp <? 10 then mp + 3 else mp - 9 in
  (yoe + era * 400 + (if m <=? 2 then 1 else 0), m, d).

Definition toISOString (t : Z) : option (list Z) :=
  if 8640000000000000 <? Z.abs t then None
  else
    let days := t / 86400000 in
    let ms := t mod 86400000 in
    let '(y, mo, d) := civil_from_days days in
    let ys := if (0 <=? y) && (y <=? 9999) then pad_digits 4 y
              else (if y <? 0 then [45] else [43]) ++ pad_digits 6 (Z.abs y) in
    Some (ys ++ [45] ++ pad_digits 2 mo ++ [45] ++ pad_digits 2 d ++ [84]
          ++ pad_digits 2 (ms / 3600000) ++ [58] ++ pad_digits 2 ((ms / 60000) mod 60) ++ [58]
          ++ pad_digits 2 ((ms / 1000) mod 60) ++ [46] ++ pad_digits 3 (ms mod 1000) ++ [90]).

Example toISOString_ex : toISOString 1700000000123 = Some (lit "2023-11-14T22:13:20.123Z").
Proof. vm_compute. reflexivity. Qed.

(** [s.indexOf(pat)]: the first index where [pat] occurs, or -1. *)
Fixpoint index_of_from (i : Z) (pat s : list Z) : Z :=
  match strip_prefix pat s with
  | Some _ => i
  | None => match s with [] => -1 | _ :: r => index_of_from (i + 1) pat r end
  end.

Definition index_of (pat s : list Z) : Z := index_of_from 0 pat s.

(** [s.startsWith(p)]. *)
Definition starts_with (p s : list Z) : bool :=
  match strip_prefix p s with Some _ => true | None => false end.

(** [s.replace(pat, rep)] with a string pattern (and a replacement
    without [$] patterns): the first occurrence only. *)
Fixpoint replace_first (pat rep s : list Z) : list Z :=
  match strip_prefix pat s with
  | Some r => rep ++ r
  | None => match s with [] => [] | c :: r => c :: replace_first pat rep r end
  end.

(** [s.replace(/\./g, '_')]: every ['.'], one code unit at a time. *)
Definition replace_all_dots (s : list Z) : list Z := map (fun c => if c =? 46 then 95 else c) s.

(** [userData.email.replace('@', '_').replace(/\./g, '_')]. *)
Definition apim_user_id (email : list Z) : list Z :=
  replace_all_dots (replace_first [64] [95] email).

(** [encodeURIComponent(s)]; [None] is the [URIError] of a lone surrogate. *)
Definition uri_unreserved (c : Z) : bool :=
  ((48 <=? c) && (c <=? 57)) || ((65 <=? c) && (c <=? 90)) || ((97 <=? c) && (c <=? 122))
  || (c =? 45) || (c =? 95) || (c =? 46) || (c =? 33) || (c =? 126) || (c =? 42)
  || (c =? 39) || (c =? 40) || (c =? 41).

Definition encodeURIComponent (s : list Z) : option (list Z) :=
  let cps := code_points s in
  if existsb (fun c => (55296 <=? c) && (c <=? 57343)) cps then None
  else Some (flat_map (fun c => if uri_unreserved c then [c]
                               else flat_map (fun b => [37; hex_upper (b / 16); hex_upper (b mod 16)])
                                             (utf8_of_cp c)) cps).

(** [name.split(' ')[0]] and [name.split(' ').slice(1).join(' ')]. *)
Fixpoint before_space (s : list Z) : list Z :=
  match s with c :: r => if c =? 32 then [] else c :: before_space r | [] => [] end.

Fixpoint after_space (s : list Z) : list Z :=
  match s with c :: r => if c =? 32 then r else after_space r | [] => [] end.

(* --- src/auth-callback/index.js: requests --- *)

(** [new URL(url)] on a value: it is converted with [ToString] first. *)
Definition url_of (v : option jvalue) : M (list Z) :=
  s ← of_option (js_to_string_opt v);
  _ ← of_option (url_parse s None);
  mret s.

(** [httpPost(url, postData)]: the status is not looked at; a body
    [JSON.parse] refuses resolves as the raw string. *)
Definition httpPost (u : option jvalue) (postData : list Z) : M jvalue :=
  s ← url_of u;
  r ← send (mk_request (lit "POST") s postData);
  match r with
  | NetError => throw
  | Response _ body => mret (match json_parse body with Some v => v | None => JStr body end)
  end.

(** [httpGetWithAuth(url, accessToken)]. *)
Definition httpGetWithAuth (u : option jvalue) (accessToken : option jvalue) : M jvalue :=
  s ← url_of u;
  _ ← of_option (js_to_string_opt accessToken);  (* the [Bearer] header *)
  r ← send (mk_request (lit "GET") s []);
  match r with
  | NetError => throw
  | Response _ body => of_option (json_parse body)
  end.

(** [httpPutJson] and [httpPostJson]: 2xx resolves with the parsed body
    (an empty body reads as [{}]), anything else rejects. *)
Definition http_json (method u : list Z) (data : jvalue) : M jvalue :=
  _ ← of_option (url_parse u None);
  r ← send (mk_request method u (json_serialize data));
  match r with
  | NetError => throw
  | Response st body =>
    if (200 <=? st) && (st <? 300) then
      of_option (json_parse (match body with [] => lit "{}" | _ => body end))
    else throw
  end.

(** [getAzureAccessToken()]. *)
Definition getAzureAccessToken : M jvalue :=
  match env "APIM_ACCESS_TOKEN" with
  | Some (c :: s) => mret (JStr (c :: s))
  | _ =>
    match env "IDENTITY_ENDPOINT", env "IDENTITY_HEADER" with
    | Some (c :: s), Some (_ :: _) =>
      let tokenUrl := (c :: s) ++ lit "?resource=https://management.azure.com/&api-version=2019-08-01" in
      _ ← of_option (url_parse tokenUrl None);
      r ← send (mk_request (lit "GET") tokenUrl []);
      match r with
      | NetError => throw
      | Response _ body =>
        response ← of_option (json_parse body);
        tok ← of_read (prop (Some response) "access_token");
        if js_truthy tok then of_option tok else throw
      end
    | _, _ => throw
    end
  end.

Definition apim_base : list Z :=
  lit "https://management.azure.com/subscriptions/" ++ js_str (env "APIM_SUBSCRIPTION_ID")
  ++ lit "/resourceGroups/" ++ js_str (env "APIM_RESOURCE_GROUP")
  ++ lit "/providers/Microsoft.ApiManagement/service/" ++ js_str (env "APIM_SERVICE_NAME")
  ++ lit "/users/".

(** [userData]: its entries in [Object.entries] order. *)
Record user_data := mk_user_data {
  ud_userId : option jvalue;  (* [userId] *)
  email : option jvalue;
  firstName : option jvalue;
  lastName : option jvalue;
  registrationDate : list Z;
  note : list Z
}.

Definition user_entries (ud : user_data) : list (list Z * option jvalue) :=
  [(lit "userId", ud_userId ud); (lit "email", email ud); (lit "firstName", firstName ud);
   (lit "lastName", lastName ud); (lit "registrationDate", Some (JStr (registrationDate ud)));
   (lit "note", Some (JStr (note ud)))].

(** [JSON.stringify] drops [undefined] members. *)
Definition defined_members (ms : list (list Z * option jvalue)) : list (list Z * jvalue) :=
  flat_map (fun kv => match snd kv with Some v => [(fst kv, v)] | None => [] end) ms.

(** [createOrUpdateUserInAPIM(userId, userData)]. *)
Definition createOrUpdateUserInAPIM (uid : list Z) (ud : user_data) : M jvalue :=
  if truthy_str (env "APIM_SUBSCRIPTION_ID") && truthy_str (env "APIM_RESOURCE_GROUP")
     && truthy_str (env "APIM_SERVICE_NAME") then
    accessToken ← getAzureAccessToken;
    _ ← of_option (js_to_string accessToken);  (* the [Bearer] header *)
    http_json (lit "PUT") (apim_base ++ uid ++ lit "?api-version=2021-08-01")
      (JObj [(lit "properties", JObj (defined_members
         [(lit "firstName", firstName ud); (lit "lastName", lastName ud); (lit "email", email ud);
          (lit "state", Some (JStr (lit "active"))); (lit "note", Some (JStr (note ud)))]))])
  else throw.

(** [getSharedAccessToken(userId)]: [response.value]. *)
Definition getSharedAccessToken (uid : list Z) : M (option jvalue) :=
  accessToken ← getAzureAccessToken;
  _ ← of_option (js_to_string accessToken);
  response ← http_json (lit "POST") (apim_base ++ uid ++ lit "/generateSsoUrl?api-version=2021-08-01") (JObj []);
  of_read (prop (Some response) "value").

(* --- src/auth-callback/index.js: the handler --- *)

Definition default_portal : list Z := lit "https://afdevapi.developer.azure-api.net".

(** [ssoResponse && ssoResponse.indexOf && ssoResponse.indexOf('signin-sso') !== -1];
    calling an own [indexOf] member of an object throws. *)
Definition sso_condition (ssoResponse : option jvalue) : M bool :=
  match ssoResponse with
  | Some (JStr (c :: s)) => mret (negb (index_of (lit "signin-sso") (c :: s) =? -1))
  | Some (JArr vs) =>
    (* strict equality: only a string element can equal the string *)
    mret (existsb (fun v => match v with JStr s => bool_decide (s = lit "signin-sso") | _ => false end) vs)
  | Some (JObj ms) => if js_truthy (obj_get (lit "indexOf") ms) then throw else mret false
  | _ => mret false
  end.

(** [encodeURIComponent] on a value. *)
Definition encode_value (v : option jvalue) : M (list Z) :=
  s ← of_option (js_to_string_opt v);
  of_option (encodeURIComponent s).

(** Step 3: the SSO URL. *)
Definition sso_url (stateData : jvalue) (ssoResponse : option jvalue) : M (list Z) :=
  sso_condition ssoResponse ≫= fun found : bool =>
  if found then
    match ssoResponse with
    | Some (JStr s) =>
      let ssoUrl := replace_first (lit ".portal.azure-api.net") (lit ".developer.azure-api.net") s in
      if index_of (lit "returnUrl=") ssoUrl =? -1 then
        let separator := if negb (index_of [63] ssoUrl =? -1) then [38] else [63] in
        (ru ← of_read (prop (Some stateData) "returnUrl");
         e ← encode_value ru;
         mret (ssoUrl ++ separator ++ lit "returnUrl=" ++ e))
      else mret ssoUrl
    | _ => throw  (* an array has no [replace] *)
    end
  else
    let baseUrl := env_or "APIM_PORTAL_URL" default_portal in
    tok ← encode_value ssoResponse;
    ru ← of_read (prop (Some stateData) "returnUrl");
    e ← encode_value ru;
    mret (baseUrl ++ lit "/signin-sso?token=" ++ tok ++ lit "&returnUrl=" ++ e).

(** [userInfo.name?.split(' ')[0]] and [...slice(1).join(' ')]: a [name]
    that is neither nullish nor a string has no [split]. *)
Definition name_part (part : list Z -> list Z) (name : option jvalue) : M (option jvalue) :=
  match name with
  | None | Some JNull => mret None
  | Some (JStr s) => mret (Some (JStr (part s)))
  | Some _ => throw
  end.

(** [a || b || '']. *)
Definition or_empty (first : option jvalue) (second : M (option jvalue)) : M (option jvalue) :=
  if js_truthy first then mret first
  else x ← second; mret (if js_truthy x then x else Some (JStr [])).

(** The log of [userInfo.sub], [.email], [.name] and then [userData]. *)
Definition make_user_data (userInfo : jvalue) : M user_data :=
  sub ← of_read (prop (Some userInfo) "sub");
  em ← of_read (prop (Some userInfo) "email");
  nm ← of_read (prop (Some userInfo) "name");
  gn ← of_read (prop (Some userInfo) "given_name");
  fn ← or_empty gn (name_part before_space nm);
  fam ← of_read (prop (Some userInfo) "family_name");
  ln ← or_empty fam (name_part after_space nm);
  t ← Date_now;
  iso ← of_option (toISOString t);
  mret (mk_user_data sub em fn ln iso (lit "User authenticated via Okta")).

(** The inner [try]: steps 1 to 3. *)
Definition provision (stateData : jvalue) (ud : user_data) : M response :=
  apimUserId ← match email ud with Some (JStr s) => mret (apim_user_id s) | _ => throw end;
  _ ← createOrUpdateUserInAPIM apimUserId ud;
  ssoResponse ← getSharedAccessToken apimUserId;
  ssoUrl ← sso_url stateData ssoResponse;
  mret (redirect ssoUrl).

(** [Object.entries(userData).forEach(... if (value) searchParams.set(key, value))]. *)
Fixpoint set_entries (es : list (list Z * option jvalue)) (u : url) : option url :=
  match es with
  | [] => Some u
  | (k, v) :: r =>
    if js_truthy v then
      match js_to_string_opt v with Some s => set_entries r (params_set k s u) | None => None end
    else set_entries r u
  end.

(** The [catch (apimError)] branch. *)
Definition fallback_redirect (stateData : jvalue) (ud : user_data) : M response :=
  ru ← of_read (prop (Some stateData) "returnUrl");
  match ru with
  | Some (JStr s) =>
    u ← of_option (url_parse s (if starts_with (lit "http") s then None
                               else Some (env_or "APIM_PORTAL_URL" default_portal)));
    u' ← of_option (set_entries (user_entries ud) u);
    sl ← of_read (prop (Some stateData) "salt");
    sv ← of_option (js_to_string_opt sl);
    mret (redirect (url_to_string (params_set (lit "salt") sv u')))
  | _ => throw  (* [startsWith] is not a function of anything but a string *)
  end.

(** The callback handler on [req.query], up to the user data: an early
    [return] ([inl]) or the decoded state and [userData] ([inr]). *)
Definition callback_prefix (query : string -> option (list Z)) : M (response + (jvalue * user_data)) :=
  let code := query "code"%string in
  let encodedState := query "state"%string in
  if negb (truthy_str code && truthy_str encodedState) then
    mret (inl (fail_with 400 "Missing code or state parameter"))
  else match decode_state (js_str encodedState) with
  | None => mret (inl (fail_with 400 "Invalid state parameter"))
  | Some stateData =>
    t ← Date_now;
    ts ← of_read (prop (Some stateData) "timestamp");
    n ← of_option (to_number ts);
    if expired t n then mret (inl (fail_with 400 "State parameter expired"))
    else
      oc ← try_catch (c ← getOidcConfiguration; mret (Some c)) (mret None);
      match oc with
      | None => mret (inl (fail_with 500 "Server configuration error"))
      | Some c =>
        let tokenData := form_serialize
          [(lit "grant_type", lit "authorization_code"); (lit "code", js_str code);
           (lit "redirect_uri", redirectUri c); (lit "client_id", clientId c);
           (lit "client_secret", clientSecret c)] in
        tokenResponse ← httpPost (token_endpoint (oc_endpoints c)) tokenData;
        err ← of_read (prop (Some tokenResponse) "error");
        if js_truthy err then throw
        else
          accessToken ← of_read (prop (Some tokenResponse) "access_token");
          userInfo ← httpGetWithAuth (userinfo_endpoint (oc_endpoints c)) accessToken;
          ud ← make_user_data userInfo;
          mret (inr (stateData, ud))
      end
  end.

(** The callback handler: the inner [try] with its fallback, inside the
    outer [try] whose [catch] answers 500. *)
Definition callback (query : string -> option (list Z)) : M response :=
  try_catch
    (r ← callback_prefix query;
     match r with
     | inl res => mret res
     | inr (stateData, ud) => try_catch (provision stateData ud) (fallback_redirect stateData ud)
     end)
    (mret (fail_with 500 "Authentication failed")).

End Handlers.

(* ------------------------------------------------------------------ *)
(** ** A concrete deployment: settings, network and URL parser *)

Definition key0 : list Z := lit "a2V5".

Definition env0 (s : string) : option (list Z) :=
  if String.eqb s "APIM_VALIDATION_KEY" then Some key0
  else if String.eqb s "OIDC_ISSUER" then Some (lit "https://iss")
  else if String.eqb s "OIDC_CLIENT_ID" then Some (lit "cid")
  else if String.eqb s "OIDC_CLIENT_SECRET" then Some (lit "sec")
  else if String.eqb s "OIDC_REDIRECT_URI" then Some (lit "https://app/cb")
  else None.

(** The identity provider answers the token request and the userinfo
    request; everything else (discovery included) fails. *)
Definition net0 (h : list request) (r : request) : net_result * Z :=
  if bool_decide (req_method r = lit "POST") then (Response 200 (qlit "{'access_token':'tok'}"), 1)
  else if bool_decide (req_url r = lit "https://iss/oauth2/userinfo") then
    (Response 200 (qlit "{'sub':'u1','email':'a@b.c'}"), 1)
  else (NetError, 1).

(** A URL parser accepting everything, relative input resolved by
    concatenation. *)
Definition url_parse0 (s : list Z) (b : option (list Z)) : option url :=
  match b with None => Some (mk_url s [] []) | Some b => Some (mk_url (b ++ s) [] []) end.

Definition w0 : world := mk_world ∅ 1000000 [].

Definition issuer0 : list Z := lit "https://iss".

Definition entry0 : cache_entry := mk_entry (mk_endpoints None None None None None) 999000.

Definition w_cached : world := mk_world {[ issuer0 := entry0 ]} 1000000 [].

Definition query_of (kvs : list (string * list Z)) (s : string) : option (list Z) :=
  match find (fun kv => String.eqb (fst kv) s) kvs with Some kv => Some (snd kv) | None => None end.

Definition q_signout : string -> option (list Z) :=
  query_of [("operation", lit "SignOut"); ("salt", lit "s"); ("userId", lit "u1");
            ("sig", computed_signature key0 (lit "s" ++ [10] ++ lit "u1"))]%string.

Definition q_unknown : string -> option (list Z) :=
  query_of [("operation", lit "Foo"); ("salt", lit "s"); ("returnUrl", lit "/x");
            ("sig", computed_signature key0 (lit "s" ++ [10] ++ lit "/x"))]%string.

Definition q_callback (st : list Z) : string -> option (list Z) :=
  query_of [("code", lit "c"); ("state", st)]%string.

Definition state_home : list Z := encode_state (mk_state (Some (lit "/home")) (Some (lit "s")) None 1000000).
Definition state_old : list Z := encode_state (mk_state (Some (lit "/home")) (Some (lit "s")) None 100000).

(** The run on [state_home]: the decoded state, the user data, the world
    after userinfo and after the failed provisioning (no APIM settings). *)
Definition stateData_home : jvalue :=
  JObj (state_members (mk_state (Some (lit "/home")) (Some (lit "s")) None 1000000)).

Definition ud_home : user_data :=
  mk_user_data (Some (JStr (lit "u1"))) (Some (JStr (lit "a@b.c"))) (Some (JStr [])) (Some (JStr []))
    (lit "1970-01-01T00:16:40.003Z") (lit "User authenticated via Okta").





(** Variants of the deployment: without the validation key, with only
    the validation key (no OIDC settings), and with the Okta settings of
    [src/delegation/index.js]. *)
Definition env_nokey (s : string) : option (list Z) :=
  if String.eqb s "APIM_VALIDATION_KEY" then None else env0 s.

Definition env_key_only (s : string) : option (list Z) :=
  if String.eqb s "APIM_VALIDATION_KEY" then Some key0 else None.

Definition env_okta (s : string) : option (list Z) :=
  if String.eqb s "OKTA_ISSUER" then Some (lit "https://okta")
  else if String.eqb s "OKTA_CLIENT_ID" then Some (lit "oid")
  else if String.eqb s "OKTA_REDIRECT_URI" then Some (lit "https://app/cb")
  else env0 s.

(** A signed SignIn request. *)
Definition q_signin : string -> option (list Z) :=
  query_of [("operation", lit "SignIn"); ("salt", lit "s"); ("returnUrl", lit "/x");
            ("sig", computed_signature key0 (lit "s" ++ [10] ++ lit "/x"))]%string.




(** Networks whose discovery document is a JSON object, and a JSON
    array. *)
Definition discovery_doc : list Z :=
  qlit "{'authorization_endpoint':'https://iss/a','token_endpoint':'https://iss/t'}".

Definition discovery_members : list (list Z * jvalue) :=
  [(lit "authorization_endpoint", JStr (lit "https://iss/a")); (lit "token_endpoint", JStr (lit "https://iss/t"))].

Definition net_doc (body : list Z) (h : list request) (r : request) : net_result * Z :=
  if bool_decide (req_url r = issuer0 ++ lit "/.well-known/openid-configuration")
  then (Response 200 body, 2) else net0 h r.


Definition env_token_only (s : string) : option (list Z) :=
  if String.eqb s "APIM_ACCESS_TOKEN" then Some (lit "mtok") else env0 s.

Definition net_apim (h : list request) (r : request) : net_result * Z :=
  if bool_decide (req_method r = lit "PUT") then (Response 200 [], 1)
  else if starts_with (lit "https://management.azure.com/") (req_url r) then (Response 200 (lit "{}"), 1)
  else net0 h r.




(* ------------------------------------------------------------------ *)
(** ** Facts about the models *)

Lemma be_bytes_ok n x : Forall byte_ok (SHA512.be_bytes n x).
Proof.
  unfold SHA512.be_bytes. apply Forall_forall. intros b Hb.
  apply list_elem_of_In, in_map_iff in Hb as (i & <- & _).
  unfold byte_ok. apply Z.mod_pos_bound. lia.
Qed.

Lemma flat_be_bytes_ok n l : Forall byte_ok (flat_map (SHA512.be_bytes n) l).
Proof.
  induction l as [|x l IH]; [constructor|]. cbn [flat_map].
  apply Forall_app. split; [apply be_bytes_ok|exact IH].
Qed.

Lemma sha512_bytes msg : Forall byte_ok (SHA512.sha512 msg).
Proof. apply flat_be_bytes_ok. Qed.

Lemma hmac_bytes key msg : Forall byte_ok (hmac_sha512 key msg).
Proof. apply sha512_bytes. Qed.

Lemma base64_encode_inj a b :
  Forall byte_ok a -> Forall byte_ok b -> base64_encode a = base64_encode b -> a = b.
Proof.
  intros Ha Hb E. rewrite <- (base64_roundtrip a Ha), <- (base64_roundtrip b Hb). now rewrite E.
Qed.

Lemma wf_buffer_roundtrip m : wf_text m -> buffer_to_string (buffer_from_string m) = m.
Proof. intros (cs & Hcs & ->). now apply buffer_roundtrip. Qed.

Lemma buffer_from_string_inj m m' :
  wf_text m -> wf_text m' -> buffer_from_string m = buffer_from_string m' -> m = m'.
Proof.
  intros H H' E. rewrite <- (wf_buffer_roundtrip m H), <- (wf_buffer_roundtrip m' H'). now rewrite E.
Qed.

Lemma validate_iff env operation salt returnUrl userId signature m :
  truthy_str (env "APIM_VALIDATION_KEY"%string) = true -> truthy_str signature = true ->
  string_to_sign operation salt returnUrl userId = Some m ->
  validateApimSignature env operation salt returnUrl userId signature = true
  <-> js_str signature = computed_signature (js_str (env "APIM_VALIDATION_KEY"%string)) m.
Proof.
  intros Hk Hs Hm. unfold validateApimSignature. rewrite Hk, Hs, Hm. cbn [negb orb].
  rewrite bool_decide_eq_true. split; intros E; symmetry; exact E.
Qed.

Lemma validate_recognized env operation salt returnUrl userId signature :
  validateApimSignature env operation salt returnUrl userId signature = true ->
  truthy_str (env "APIM_VALIDATION_KEY"%string) = true /\ truthy_str signature = true
  /\ exists m, string_to_sign operation salt returnUrl userId = Some m
     /\ js_str signature = computed_signature (js_str (env "APIM_VALIDATION_KEY"%string)) m.
Proof.
  unfold validateApimSignature.
  destruct (truthy_str (env "APIM_VALIDATION_KEY"%string)), (truthy_str signature);
    cbn [negb orb]; try discriminate.
  destruct (string_to_sign operation salt returnUrl userId) as [m|]; [|discriminate].
  intros H. apply bool_decide_eq_true in H.
  split; [reflexivity|]. split; [reflexivity|]. exists m. split; [reflexivity | symmetry; exact H].
Qed.

Lemma string_to_sign_shape operation salt returnUrl userId m :
  string_to_sign operation salt returnUrl userId = Some m ->
  m = js_str salt ++ [10] ++ js_str returnUrl
  /\ (operation = Some (lit "SignIn") \/ operation = Some (lit "SignUp"))
  \/ m = js_str salt ++ [10] ++ js_str userId
  /\ (operation = Some (lit "ChangePassword") \/ operation = Some (lit "ChangeProfile")
      \/ operation = Some (lit "CloseAccount") \/ operation = Some (lit "SignOut")).
Proof.
  unfold string_to_sign, is_op.
  repeat match goal with |- context [bool_decide ?P] => destruct (bool_decide_reflect P) end;
    cbn [orb]; intros H; try discriminate; injection H as <-; tauto.
Qed.

Lemma string_to_sign_signin operation salt returnUrl userId :
  operation = Some (lit "SignIn") \/ operation = Some (lit "SignUp") ->
  string_to_sign operation salt returnUrl userId = Some (js_str salt ++ [10] ++ js_str returnUrl).
Proof. intros [-> | ->]; reflexivity. Qed.

Lemma string_to_sign_user operation salt returnUrl userId :
  operation = Some (lit "ChangePassword") \/ operation = Some (lit "ChangeProfile")
  \/ operation = Some (lit "CloseAccount") \/ operation = Some (lit "SignOut") ->
  string_to_sign operation salt returnUrl userId = Some (js_str salt ++ [10] ++ js_str userId).
Proof. intros [-> | [-> | [-> | ->]]]; reflexivity. Qed.

(** Evaluation of the monad. *)
Lemma bind_app {A B} (m : M A) (k : A -> M B) w :
  (m ≫= k) w = match m w with (Ok a, w') => k a w' | (Throw, w') => (Throw, w') end.
Proof. reflexivity. Qed.

Lemma ret_bind {A B} (a : A) (k : A -> M B) : (mret a ≫= k) = k a.
Proof. reflexivity. Qed.

Lemma Date_now_bind {B} (k : Z -> M B) w : (Date_now ≫= k) w = k (clock w) w.
Proof. reflexivity. Qed.

Lemma try_catch_app {A} (m h : M A) w :
  try_catch m h w = match m w with (Throw, w') => h w' | r => r end.
Proof. reflexivity. Qed.

(** [holds P m]: whatever world [m] runs in, a value it returns satisfies [P]. *)
Definition holds {A} (P : A -> Prop) (m : M A) : Prop :=
  forall w, match fst (m w) with Ok a => P a | Throw => True end.

Lemma holds_ret {A} (P : A -> Prop) a : P a -> holds P (mret a).
Proof. intros H w. exact H. Qed.

Lemma holds_throw {A} (P : A -> Prop) : holds P throw.
Proof. intros w. exact I. Qed.

Lemma holds_bind {A B} (P : B -> Prop) (m : M A) (k : A -> M B) :
  (forall a, holds P (k a)) -> holds P (m ≫= k).
Proof.
  intros H w. rewrite bind_app. destruct (m w) as [[a|] w']; [apply H | exact I].
Qed.

Lemma holds_try {A} (P : A -> Prop) (m h : M A) : holds P m -> holds P h -> holds P (try_catch m h).
Proof.
  intros Hm Hh w. rewrite try_catch_app. specialize (Hm w).
  destruct (m w) as [[a|] w']; [exact Hm | apply Hh].
Qed.

Lemma holds_of_option {A} (P : A -> Prop) o : (forall a, o = Some a -> P a) -> holds P (of_option o).
Proof. destruct o; intros H; [apply holds_ret; now apply H | apply holds_throw]. Qed.

Create HintDb holds.
#[global] Hint Resolve holds_ret holds_throw holds_try : holds.

Ltac holds_steps :=
  repeat (apply holds_bind; intros ?) ;
  try solve [ eauto with holds | apply holds_ret; reflexivity ].

(** The inner [try] and its [catch] only ever answer a redirect. *)
Lemma provision_redirects env net url_parse stateData ud :
  holds (fun r => status r = 302) (provision env net url_parse stateData ud).
Proof. unfold provision. holds_steps. Qed.

Lemma fallback_redirects env url_parse stateData ud :
  holds (fun r => status r = 302) (fallback_redirect env url_parse stateData ud).
Proof.
  unfold fallback_redirect. apply holds_bind. intros [[]|]; try apply holds_throw.
  holds_steps.
Qed.

(** A validly signed SignIn never answers 400: a redirect, or a 500. *)
Lemma delegation_signin_not_400 env net url_parse query :
  validateApimSignature env (query "operation"%string) (query "salt"%string)
    (query "returnUrl"%string) (query "userId"%string) (query "sig"%string) = true ->
  is_op (query "operation"%string) "SignIn" = true ->
  holds (fun r => status r <> 400) (delegation env net url_parse query).
Proof.
  intros Hv Hop. unfold delegation. cbv zeta. rewrite Hv, Hop. cbn [negb].
  apply holds_try; [|apply holds_ret; cbn; lia].
  apply holds_bind. intros [c|]; [|apply holds_ret; cbn; lia].
  apply holds_bind. intros t. apply holds_bind. intros a. apply holds_ret. cbn. lia.
Qed.

(** After the freshness check, the early returns are all 500s. *)
Definition late_return (r : response + (jvalue * user_data)) : Prop :=
  match r with inl res => status res = 500 | inr _ => True end.

Lemma callback_prefix_checked env net url_parse query w sd v n :
  truthy_str (query "code"%string) = true -> truthy_str (query "state"%string) = true ->
  decode_state (js_str (query "state"%string)) = Some sd ->
  prop (Some sd) "timestamp" = Val v -> to_number v = Some n ->
  exists rest, holds late_return rest /\
    callback_prefix env net url_parse query w =
      if expired (clock w) n then (Ok (inl (fail_with 400 "State parameter expired")), w)
      else rest w.
Proof.
  intros Hc Hs Hd Ht Hn. eexists. split; cycle 1.
  { unfold callback_prefix. rewrite Hc, Hs. cbn [andb negb]. rewrite Hd.
    rewrite Date_now_bind, Ht. cbn [of_read]. rewrite ret_bind, Hn. cbn [of_option].
    rewrite ret_bind. destruct (expired (clock w) n); reflexivity. }
  apply holds_bind. intros [c|]; [|apply holds_ret; reflexivity].
  holds_steps. destruct (js_truthy _); holds_steps.
Qed.


Lemma callback_after_prefix env net url_parse query w :
  callback env net url_parse query w =
  match callback_prefix env net url_parse query w with
  | (Ok (inl res), w') => (Ok res, w')
  | (Ok (inr (stateData, ud)), w') =>
    match try_catch (provision env net url_parse stateData ud)
            (fallback_redirect env url_parse stateData ud) w' with
    | (Throw, w'') => (Ok (fail_with 500 "Authentication failed"), w'')
    | r => r
    end
  | (Throw, w') => (Ok (fail_with 500 "Authentication failed"), w')
  end.
Proof.
  unfold callback. rewrite try_catch_app, bind_app.
  destruct (callback_prefix env net url_parse query w) as [[[res|[sd ud]]|] w']; reflexivity.
Qed.

(** The freshness check of the callback, on any [ToNumber] result. *)
Lemma callback_checked env net url_parse query w sd v n :
  truthy_str (query "code"%string) = true -> truthy_str (query "state"%string) = true ->
  decode_state (js_str (query "state"%string)) = Some sd ->
  prop (Some sd) "timestamp" = Val v -> to_number v = Some n ->
  (expired (clock w) n = true ->
   callback env net url_parse query w = (Ok (fail_with 400 "State parameter expired"), w))
  /\ (expired (clock w) n = false ->
      exists r, fst (callback env net url_parse query w) = Ok r /\ (status r = 500 \/ status r = 302)).
Proof.
  intros Hc Hs Hd Ht Hn.
  destruct (callback_prefix_checked env net url_parse query w sd v n Hc Hs Hd Ht Hn) as (rest & Hr & E).
  rewrite callback_after_prefix, E. split; intros Hx; rewrite Hx; [reflexivity|].
  specialize (Hr w). destruct (rest w) as [[[res|[sd' ud]]|] w'].
  - eexists; split; [reflexivity|]. now left.
  - pose proof (holds_try _ _ _ (provision_redirects env net url_parse sd' ud)
                  (fallback_redirects env url_parse sd' ud) w') as Hp.
    destruct (try_catch _ _ w') as [[r|] w'']; cbn in Hp |- *.
    + eexists; split; [reflexivity|]. now right.
    + eexists; split; [reflexivity|]. now left.
  - eexists; split; [reflexivity|]. now left.
Qed.

Lemma callback_expired_iff env net url_parse query w sd v n :
  truthy_str (query "code"%string) = true -> truthy_str (query "state"%string) = true ->
  decode_state (js_str (query "state"%string)) = Some sd ->
  prop (Some sd) "timestamp" = Val v -> to_number v = Some n ->
  fst (callback env net url_parse query w) = Ok (fail_with 400 "State parameter expired")
  <-> expired (clock w) n = true.
Proof.
  intros Hc Hs Hd Ht Hn.
  destruct (callback_checked env net url_parse query w sd v n Hc Hs Hd Ht Hn) as [Hx Hf].
  destruct (expired (clock w) n) eqn:E.
  - rewrite (Hx eq_refl). tauto.
  - destruct (Hf eq_refl) as (r & Er & Hr). rewrite Er. split; [|discriminate].
    intros Eq. injection Eq as ->. cbn in Hr. lia.
Qed.

Lemma string_to_sign_none operation salt returnUrl userId :
  ~ (operation = Some (lit "SignIn") \/ operation = Some (lit "SignUp")
     \/ operation = Some (lit "ChangePassword") \/ operation = Some (lit "ChangeProfile")
     \/ operation = Some (lit "CloseAccount") \/ operation = Some (lit "SignOut")) ->
  string_to_sign operation salt returnUrl userId = None.
Proof.
  intros H. unfold string_to_sign, is_op.
  repeat match goal with |- context [bool_decide ?P] => destruct (bool_decide_reflect P) end;
    cbn [orb]; tauto.
Qed.

Lemma validate_unknown env operation salt returnUrl userId signature :
  string_to_sign operation salt returnUrl userId = None ->
  validateApimSignature env operation salt returnUrl userId signature = false.
Proof.
  intros H. unfold validateApimSignature. rewrite H.
  now destruct (negb _ || negb _).
Qed.

Lemma delegation_not_signin env net url_parse query w :
  validateApimSignature env (query "operation"%string) (query "salt"%string)
    (query "returnUrl"%string) (query "userId"%string) (query "sig"%string) = true ->
  is_op (query "operation"%string) "SignIn" = false ->
  delegation env net url_parse query w = (Ok (fail_with 400 "Unsupported operation"), w).
Proof.
  intros Hv Hop. unfold delegation. cbv zeta. rewrite try_catch_app, Hv, Hop. reflexivity.
Qed.

Lemma string_to_sign_some operation salt returnUrl userId :
  string_to_sign operation salt returnUrl userId <> None ->
  operation = Some (lit "SignIn") \/ operation = Some (lit "SignUp")
  \/ operation = Some (lit "ChangePassword") \/ operation = Some (lit "ChangeProfile")
  \/ operation = Some (lit "CloseAccount") \/ operation = Some (lit "SignOut").
Proof.
  intros H. destruct (decide (operation = Some (lit "SignIn") \/ operation = Some (lit "SignUp")
    \/ operation = Some (lit "ChangePassword") \/ operation = Some (lit "ChangeProfile")
    \/ operation = Some (lit "CloseAccount") \/ operation = Some (lit "SignOut"))) as [Hd|Hd];
    [exact Hd|].
  exfalso. apply H. now apply string_to_sign_none.
Qed.

(** Requests sent by a computation. *)
Definition sends {A} (f : list request -> list request) (m : M A) : Prop :=
  forall w, requests (snd (m w)) = f (requests w).

Lemma sends_ret {A} (a : A) : sends id (mret a).
Proof. intros w. reflexivity. Qed.

Lemma sends_throw {A} : sends (A := A) id throw.
Proof. intros w. reflexivity. Qed.

Lemma sends_bind {A B} f (m : M A) (k : A -> M B) :
  sends f m -> (forall a, sends id (k a)) -> sends f (m ≫= k).
Proof.
  intros Hm Hk w. rewrite bind_app. specialize (Hm w).
  destruct (m w) as [[a|] w']; cbn in *; [rewrite Hk; exact Hm | exact Hm].
Qed.

Lemma sends_try {A} f (m h : M A) : sends f m -> sends id h -> sends f (try_catch m h).
Proof.
  intros Hm Hh w. rewrite try_catch_app. specialize (Hm w).
  destruct (m w) as [[a|] w']; cbn in *; [exact Hm | rewrite Hh; exact Hm].
Qed.

Lemma sends_of_read r : sends id (of_read r).
Proof. destruct r; [apply sends_ret | apply sends_throw]. Qed.

Lemma sends_of_option {A} (o : option A) : sends id (of_option o).
Proof. destruct o; [apply sends_ret | apply sends_throw]. Qed.

Lemma sends_Date_now : sends id Date_now.
Proof. intros w. reflexivity. Qed.

Lemma sends_cache_set k e : sends id (cache_set k e).
Proof. intros w. reflexivity. Qed.

Create HintDb sends.
#[global] Hint Resolve sends_ret sends_throw sends_of_read sends_of_option sends_Date_now
  sends_cache_set : sends.

Lemma sends_endpoints_of config : sends id (endpoints_of config).
Proof.
  unfold endpoints_of. repeat (apply sends_bind; [auto with sends | intros ?]). apply sends_ret.
Qed.

(** The discovery fetch sends the one discovery request when the URL parses. *)
Lemma discover_fetch_sends env net url_parse issuer u :
  url_parse (issuer ++ lit "/.well-known/openid-configuration") None = Some u ->
  sends (fun rs => rs ++ [mk_request (lit "GET") (issuer ++ lit "/.well-known/openid-configuration") []])
    (discover_fetch env net url_parse issuer).
Proof.
  intros Hu. unfold discover_fetch. apply sends_try; [|apply sends_ret].
  apply sends_bind.
  - unfold httpsGet. rewrite Hu. apply sends_bind.
    + intros w. unfold send. destruct (net _ _). reflexivity.
    + intros [|st body]; [apply sends_throw|].
      destruct (_ && _); [apply sends_of_option | apply sends_throw].
  - intros config. apply sends_bind; [apply sends_endpoints_of|]. intros eps.
    repeat (apply sends_bind; [auto with sends | intros ?]). apply sends_ret.
Qed.

Lemma replace_first_at s j c :
  s !! j = Some c ->
  replace_first [64] [95] s !! j
  = Some (if (c =? 64) && negb (existsb (fun d => d =? 64) (take j s)) then 95 else c).
Proof.
  revert j. induction s as [|x r IH]; intros j Hj; [discriminate|].
  cbn [replace_first strip_prefix]. destruct (64 =? x) eqn:Ex.
  - apply Z.eqb_eq in Ex. subst x. destruct j as [|j]; cbn in Hj |- *.
    + injection Hj as <-. reflexivity.
    + rewrite Hj. destruct (c =? 64); reflexivity.
  - apply Z.eqb_neq in Ex. destruct j as [|j]; cbn in Hj |- *.
    + injection Hj as ->. destruct (Z.eqb_spec c 64); [lia | reflexivity].
    + rewrite (proj2 (Z.eqb_neq x 64)) by lia. cbn [orb]. now apply IH.
Qed.

Lemma replace_first_length s : length (replace_first [64] [95] s) = length s.
Proof.
  induction s as [|x r IH]; [reflexivity|]. cbn [replace_first strip_prefix].
  destruct (64 =? x); cbn; congruence.
Qed.

Lemma discover_not_fresh env net url_parse issuer w :
  (forall e, discoveryCache w !! issuer = Some e -> CACHE_TTL <= clock w - entry_timestamp e) ->
  discoverOidcEndpoints env net url_parse issuer w = discover_fetch env net url_parse issuer w.
Proof.
  intros Hst. unfold discoverOidcEndpoints. rewrite bind_app. unfold cache_get.
  destruct (discoveryCache w !! issuer) as [e|] eqn:He; [|reflexivity].
  rewrite Date_now_bind. specialize (Hst e eq_refl).
  rewrite (proj2 (Z.ltb_ge _ _) Hst). reflexivity.
Qed.

Lemma json_parse_empty : json_parse [] = None.
Proof. reflexivity. Qed.


Lemma lookup_map {A B} (f : A -> B) (l : list A) j : map f l !! j = option_map f (l !! j).
Proof. revert j. induction l as [|x l IH]; intros [|j]; cbn; auto. Qed.

Lemma getOidcConfig_fail env :
  truthy_str (env "OIDC_ISSUER"%string) && truthy_str (env "OIDC_CLIENT_ID"%string)
  && truthy_str (env "OIDC_CLIENT_SECRET"%string) && truthy_str (env "OIDC_REDIRECT_URI"%string) = false ->
  getOidcConfig env = throw.
Proof.
  unfold getOidcConfig.
  destruct (env "OIDC_ISSUER"%string) as [[|]|], (env "OIDC_CLIENT_ID"%string) as [[|]|],
    (env "OIDC_CLIENT_SECRET"%string) as [[|]|], (env "OIDC_REDIRECT_URI"%string) as [[|]|];
    cbn; congruence.
Qed.

Lemma getOidcConfig_ok env :
  truthy_str (env "OIDC_ISSUER"%string) && truthy_str (env "OIDC_CLIENT_ID"%string)
  && truthy_str (env "OIDC_CLIENT_SECRET"%string) && truthy_str (env "OIDC_REDIRECT_URI"%string) = true ->
  getOidcConfig env = mret (js_str (env "OIDC_ISSUER"%string), js_str (env "OIDC_CLIENT_ID"%string),
                            js_str (env "OIDC_CLIENT_SECRET"%string), js_str (env "OIDC_REDIRECT_URI"%string)).
Proof.
  unfold getOidcConfig.
  destruct (env "OIDC_ISSUER"%string) as [[|]|], (env "OIDC_CLIENT_ID"%string) as [[|]|],
    (env "OIDC_CLIENT_SECRET"%string) as [[|]|], (env "OIDC_REDIRECT_URI"%string) as [[|]|];
    cbn; congruence.
Qed.

Lemma getOidcConfiguration_fail env net url_parse w :
  truthy_str (env "OIDC_ISSUER"%string) && truthy_str (env "OIDC_CLIENT_ID"%string)
  && truthy_str (env "OIDC_CLIENT_SECRET"%string) && truthy_str (env "OIDC_REDIRECT_URI"%string) = false ->
  getOidcConfiguration env net url_parse w = (Throw, w).
Proof.
  intros H. unfold getOidcConfiguration. rewrite bind_app, (getOidcConfig_fail env H). reflexivity.
Qed.

Lemma discover_fetch_success env net url_parse issuer w u st body dt config eps :
  let discoveryUrl := issuer ++ lit "/.well-known/openid-configuration" in
  let req := mk_request (lit "GET") discoveryUrl [] in
  url_parse discoveryUrl None = Some u ->
  net (requests w) req = (Response st body, dt) -> 200 <= st < 300 ->
  json_parse body = Some config -> endpoints_of config = mret eps ->
  discover_fetch env net url_parse issuer w =
  (Ok eps, mk_world (<[issuer := mk_entry eps (clock w + dt)]> (discoveryCache w))
                    (clock w + dt) (requests w ++ [req])).
Proof.
  intros discoveryUrl req Hu Hn Hst Hj He.
  unfold discover_fetch. rewrite try_catch_app, bind_app. unfold httpsGet.
  fold discoveryUrl. rewrite Hu. rewrite bind_app. unfold send. fold req. rewrite Hn.
  cbv beta iota zeta.
  replace ((200 <=? st) && (st <? 300)) with true
    by (symmetry; apply andb_true_iff; split; [apply Z.leb_le | apply Z.ltb_lt]; lia).
  rewrite Hj. cbn [of_option mret M_ret]. rewrite bind_app, He. reflexivity.
Qed.

Lemma discover_cached_fresh env net url_parse issuer w e :
  discoveryCache w !! issuer = Some e -> clock w - entry_timestamp e < CACHE_TTL ->
  discoverOidcEndpoints env net url_parse issuer w = (Ok (endpoints e), w).
Proof.
  intros He Ht. unfold discoverOidcEndpoints. rewrite bind_app.
  unfold cache_get. rewrite He. rewrite Date_now_bind.
  rewrite (proj2 (Z.ltb_lt _ _) Ht). reflexivity.
Qed.

Lemma q_signin_valid :
  validateApimSignature env0 (q_signin "operation"%string) (q_signin "salt"%string)
    (q_signin "returnUrl"%string) (q_signin "userId"%string) (q_signin "sig"%string) = true.
Proof. vm_compute. reflexivity. Qed.

Lemma q_signin_valid_okta :
  validateApimSignature env_okta (q_signin "operation"%string) (q_signin "salt"%string)
    (q_signin "returnUrl"%string) (q_signin "userId"%string) (q_signin "sig"%string) = true.
Proof. vm_compute. reflexivity. Qed.

(** [URLSearchParams.set] on the pair list. *)
Lemma set_first_other name value q :
  filter (fun p : list Z * list Z => fst p <> name) (set_first name value q)
  = filter (fun p : list Z * list Z => fst p <> name) q.
Proof.
  induction q as [|[n v] r IH]; [reflexivity|]. cbn [set_first].
  case_bool_decide as Hn.
  - subst n. rewrite !filter_cons. cbn [fst]. case_decide; [contradiction|].
    rewrite list_filter_filter. apply list_filter_iff. tauto.
  - rewrite !filter_cons. cbn [fst]. case_decide; [|contradiction]. now rewrite IH.
Qed.

Lemma filter_same_other name l :
  filter (fun p : list Z * list Z => fst p = name) (filter (fun p : list Z * list Z => fst p <> name) l) = [].
Proof.
  induction l as [|x l IH]; [reflexivity|]. rewrite (filter_cons (fun p => fst p <> name)).
  case_decide as H; [|exact IH]. rewrite filter_cons. case_decide; [contradiction | exact IH].
Qed.

Lemma set_first_same name value q :
  existsb (fun p => bool_decide (fst p = name)) q = true ->
  filter (fun p : list Z * list Z => fst p = name) (set_first name value q) = [(name, value)].
Proof.
  induction q as [|[n v] r IH]; cbn [existsb set_first fst]; [discriminate|].
  case_bool_decide as Hn; cbn [orb]; intros H.
  - subst n. rewrite filter_cons. cbn [fst]. case_decide; [|contradiction].
    now rewrite filter_same_other.
  - rewrite filter_cons. cbn [fst]. case_decide; [contradiction|]. now apply IH.
Qed.

Lemma filter_same_none name q :
  existsb (fun p => bool_decide (fst p = name)) q = false ->
  filter (fun p : list Z * list Z => fst p = name) q = [].
Proof.
  induction q as [|[n v] r IH]; cbn [existsb fst]; [reflexivity|].
  case_bool_decide as Hn; cbn [orb]; [discriminate|]. intros H.
  rewrite filter_cons. cbn [fst]. case_decide; [contradiction|]. now apply IH.
Qed.

(** The bytes of [Buffer.from(s)] and the characters the encoders emit. *)
Lemma buffer_bytes s : units_ok s -> Forall byte_ok (buffer_from_string s).
Proof.
  intros H. apply utf8_encode_bytes. unfold utf8_scalars.
  apply List.Forall_forall. intros c Hc. apply in_map_iff in Hc as (x & <- & Hx).
  pose proof (proj1 (List.Forall_forall _ _) (code_points_range s H) x Hx) as Hr. cbv beta in Hr.
  apply is_scalar_spec. unfold scalar_of_cp.
  destruct (Z.leb_spec 55296 x), (Z.leb_spec x 57343); cbn; lia.
Qed.

Lemma hex_upper_cases d : 0 <= d < 16 ->
  (48 <= hex_upper d <= 57) \/ (65 <= hex_upper d <= 70).
Proof. intros H. unfold hex_upper. destruct (Z.ltb_spec d 10); lia. Qed.

Lemma form_byte_safe b : byte_ok b ->
  Forall (fun c => c = 37 \/ c = 43 \/ c = 42 \/ c = 45 \/ c = 46 \/ c = 95
                   \/ 48 <= c <= 57 \/ 65 <= c <= 90 \/ 97 <= c <= 122) (form_byte b).
Proof.
  unfold byte_ok, form_byte. intros Hb.
  destruct (Z.eqb_spec b 32); [repeat constructor; tauto|].
  destruct ((b =? 42) || (b =? 45) || (b =? 46) || (b =? 95) || ((48 <=? b) && (b <=? 57))
            || ((65 <=? b) && (b <=? 90)) || ((97 <=? b) && (b <=? 122))) eqn:E.
  - constructor; [|constructor]. repeat (apply orb_true_iff in E as [E|E]);
      repeat match goal with
      | H : (_ && _) = true |- _ => apply andb_true_iff in H as [? ?]
      | H : (_ =? _) = true |- _ => apply Z.eqb_eq in H
      | H : (_ <=? _) = true |- _ => apply Z.leb_le in H
      end; lia.
  - pose proof (hex_upper_cases (b / 16) ltac:(split; [apply Z.div_pos | apply Z.div_lt_upper_bound]; lia)).
    pose proof (hex_upper_cases (b mod 16) ltac:(apply Z.mod_pos_bound; lia)).
    constructor; [lia|]. constructor; [lia|]. constructor; [lia|]. constructor.
Qed.

Lemma count_join_sep xs :
  Forall (fun x => count_occ Z.eq_dec x 38 = 0%nat) xs ->
  count_occ Z.eq_dec (join [38] xs) 38 = pred (length xs).
Proof.
  induction 1 as [|x r Hx Hr IH]; [reflexivity|].
  destruct r as [|y r]; [exact Hx|].
  change (join [38] (x :: y :: r)) with (x ++ [38] ++ join [38] (y :: r)).
  rewrite !count_occ_app, Hx, IH. cbn. lia.
Qed.

Lemma count_join_other c xs : c <> 38 ->
  count_occ Z.eq_dec (join [38] xs) c = fold_right (fun x n => (count_occ Z.eq_dec x c + n)%nat) 0%nat xs.
Proof.
  intros Hc. induction xs as [|x r IH]; [reflexivity|].
  destruct r as [|y r]; [cbn; lia|].
  change (join [38] (x :: y :: r)) with (x ++ [38] ++ join [38] (y :: r)).
  rewrite !count_occ_app, IH. cbn [count_occ]. destruct (Z.eq_dec 38 c); [congruence|]. cbn. lia.
Qed.

Lemma form_encode_no s c : units_ok s ->
  ~ (c = 37 \/ c = 43 \/ c = 42 \/ c = 45 \/ c = 46 \/ c = 95
     \/ 48 <= c <= 57 \/ 65 <= c <= 90 \/ 97 <= c <= 122) ->
  count_occ Z.eq_dec (form_encode s) c = 0%nat.
Proof.
  intros Hs Hc. apply count_occ_not_In. intros Hin.
  unfold form_encode in Hin. apply in_flat_map in Hin as (b & Hb & Hin).
  pose proof (proj1 (List.Forall_forall _ _) (buffer_bytes s Hs) b Hb) as Hbb.
  exact (Hc (proj1 (List.Forall_forall _ _) (form_byte_safe b Hbb) c Hin)).
Qed.

Lemma before_after_space s :
  before_space s ++ (if existsb (fun c => c =? 32) s then 32 :: after_space s else []) = s.
Proof.
  induction s as [|c r IH]; [reflexivity|]. cbn [before_space after_space existsb].
  destruct (Z.eqb_spec c 32) as [->|Hc]; cbn [orb app]; [reflexivity|]. now rewrite IH.
Qed.

Lemma units_ok_check s : forallb (fun u => (0 <=? u) && (u <? 65536)) s = true -> units_ok s.
Proof.
  intros H. apply List.Forall_forall. intros u Hu.
  pose proof (proj1 (forallb_forall _ s) H u Hu) as E. cbv beta in E.
  apply andb_true_iff in E as [E1 E2]. apply Z.leb_le in E1. apply Z.ltb_lt in E2. lia.
Qed.

(** The management-API helpers. *)
Lemma getAzureAccessToken_manual env net url_parse c s :
  env "APIM_ACCESS_TOKEN"%string = Some (c :: s) ->
  getAzureAccessToken env net url_parse = mret (JStr (c :: s)).
Proof. intros H. unfold getAzureAccessToken. rewrite H. reflexivity. Qed.

Lemma getAzureAccessToken_none env net url_parse :
  truthy_str (env "APIM_ACCESS_TOKEN"%string) = false ->
  truthy_str (env "IDENTITY_ENDPOINT"%string) && truthy_str (env "IDENTITY_HEADER"%string) = false ->
  getAzureAccessToken env net url_parse = throw.
Proof.
  intros H1 H2. unfold getAzureAccessToken.
  destruct (env "APIM_ACCESS_TOKEN"%string) as [[|c s]|]; cbn [truthy_str] in H1; try discriminate H1;
  destruct (env "IDENTITY_ENDPOINT"%string) as [[|c' s']|], (env "IDENTITY_HEADER"%string) as [[|d t]|];
  cbn [truthy_str andb] in H2; try discriminate H2; reflexivity.
Qed.

Lemma http_json_app net url_parse method u data w v st body dt :
  url_parse u None = Some v ->
  net (requests w) (mk_request method u (json_serialize data)) = (Response st body, dt) ->
  http_json net url_parse method u data w =
  ((if (200 <=? st) && (st <? 300) then of_option (json_parse (match body with [] => lit "{}" | _ => body end))
    else throw)
     (mk_world (discoveryCache w) (clock w + dt) (requests w ++ [mk_request method u (json_serialize data)]))).
Proof.
  intros Hu Hn. unfold http_json. rewrite bind_app, Hu. cbn [of_option mret M_ret].
  rewrite bind_app. unfold send. rewrite Hn. reflexivity.
Qed.

Lemma is_2xx st : 200 <= st < 300 -> (200 <=? st) && (st <? 300) = true.
Proof. intros H. apply andb_true_iff. split; [apply Z.leb_le | apply Z.ltb_lt]; lia. Qed.

(** A state is never empty: it is the base64 of a JSON object text. *)
Lemma base64_nonempty bs : bs <> [] -> base64_encode bs <> [].
Proof. destruct bs as [|b1 [|b2 [|b3 r]]]; cbn; congruence. Qed.

Lemma buffer_cons_ascii c r : 0 <= c < 128 -> buffer_from_string (c :: r) = c :: buffer_from_string r.
Proof.
  intros H. unfold buffer_from_string, utf8_scalars, utf8_encode. cbn [code_points].
  unfold is_high. rewrite (proj2 (Z.leb_gt 55296 c)) by lia. cbn [andb map flat_map].
  unfold scalar_of_cp at 1. rewrite (proj2 (Z.leb_gt 55296 c)) by lia. cbn [andb].
  unfold utf8_of_cp at 1. rewrite (proj2 (Z.ltb_lt c 128)) by lia. reflexivity.
Qed.

Lemma encode_state_truthy sd : truthy_str (Some (encode_state sd)) = true.
Proof.
  unfold encode_state. destruct (base64_encode _) eqn:E; [|reflexivity]. exfalso. revert E.
  apply base64_nonempty. cbn [json_serialize app]. rewrite buffer_cons_ascii by lia. discriminate.
Qed.

Lemma state_timestamp sd :
  prop (Some (JObj (state_members sd))) "timestamp" = Val (Some (JNum (mkdec (timestamp sd) 0))).
Proof. destruct sd as [[r|] [s|] [u|] ts]; reflexivity. Qed.

(* ------------------------------------------------------------------ *)
(** ** Claims *)

(** C1: with the validation key set and a signature supplied, validation
    of SignIn and SignUp succeeds exactly when the signature is the base64
    HMAC-SHA512, under the base64-decoded key, of the UTF-8 bytes of
    [salt + '\n' + returnUrl]; for ChangePassword, ChangeProfile,
    CloseAccount and SignOut the same holds with [salt + '\n' + userId].
    A different signature then fails. Changing the salt alone, or the
    returnUrl (resp. userId) alone, changes the string to sign, and two
    different strings to sign (well-formed text) that validate under the
    same signature are two distinct byte messages with the same HMAC: a
    collision of HMAC-SHA512. *)
Theorem validateApimSignature_spec env signature
  (Hkey : truthy_str (env "APIM_VALIDATION_KEY"%string) = true)
  (Hsig : truthy_str signature = true) :
  let key := js_str (env "APIM_VALIDATION_KEY"%string) in
  (forall operation salt returnUrl userId,
     operation = Some (lit "SignIn") \/ operation = Some (lit "SignUp") ->
     validateApimSignature env operation salt returnUrl userId signature = true
     <-> js_str signature = computed_signature key (js_str salt ++ [10] ++ js_str returnUrl))
  /\ (forall operation salt returnUrl userId,
     operation = Some (lit "ChangePassword") \/ operation = Some (lit "ChangeProfile")
     \/ operation = Some (lit "CloseAccount") \/ operation = Some (lit "SignOut") ->
     validateApimSignature env operation salt returnUrl userId signature = true
     <-> js_str signature = computed_signature key (js_str salt ++ [10] ++ js_str userId))
  /\ (forall operation salt returnUrl userId signature',
     js_str signature' <> js_str signature ->
     validateApimSignature env operation salt returnUrl userId signature = true ->
     validateApimSignature env operation salt returnUrl userId signature' = false)
  /\ (forall operation salt salt' returnUrl userId m,
     string_to_sign operation salt returnUrl userId = Some m ->
     js_str salt <> js_str salt' ->
     exists m', string_to_sign operation salt' returnUrl userId = Some m' /\ m <> m')
  /\ (forall operation salt returnUrl returnUrl' userId userId' m,
     string_to_sign operation salt returnUrl userId = Some m ->
     (js_str returnUrl <> js_str returnUrl'
        /\ (operation = Some (lit "SignIn") \/ operation = Some (lit "SignUp"))
      \/ js_str userId <> js_str userId'
        /\ ~ (operation = Some (lit "SignIn") \/ operation = Some (lit "SignUp"))) ->
     exists m', string_to_sign operation salt returnUrl' userId' = Some m' /\ m <> m')
  /\ (forall operation salt salt' returnUrl returnUrl' userId userId' m m',
     string_to_sign operation salt returnUrl userId = Some m ->
     string_to_sign operation salt' returnUrl' userId' = Some m' ->
     wf_text m -> wf_text m' -> m <> m' ->
     validateApimSignature env operation salt returnUrl userId signature = true ->
     validateApimSignature env operation salt' returnUrl' userId' signature = true ->
     buffer_from_string m <> buffer_from_string m'
     /\ hmac_sha512 (base64_decode key) (buffer_from_string m)
        = hmac_sha512 (base64_decode key) (buffer_from_string m')).
Proof.
  intros key. split; [|split; [|split; [|split; [|split]]]].
  - intros op s r u Hop. apply validate_iff; auto. now apply string_to_sign_signin.
  - intros op s r u Hop. apply validate_iff; auto. now apply string_to_sign_user.
  - intros op s r u sig' Hne Hv.
    destruct (validate_recognized _ _ _ _ _ _ Hv) as (_ & _ & m & Hm & E).
    destruct (validateApimSignature env op s r u sig') eqn:Hv'; [|reflexivity].
    destruct (validate_recognized _ _ _ _ _ _ Hv') as (_ & _ & m2 & Hm2 & E2).
    rewrite Hm in Hm2. injection Hm2 as <-. exfalso. apply Hne. congruence.
  - intros op s s' r u m Hm Hd.
    destruct (string_to_sign_shape _ _ _ _ _ Hm) as [[-> Hop] | [-> Hop]].
    + exists (js_str s' ++ [10] ++ js_str r). split; [now apply string_to_sign_signin|].
      intros E. rewrite !app_assoc in E. apply app_inv_tail in E. apply Hd.
      now apply app_inv_tail in E.
    + exists (js_str s' ++ [10] ++ js_str u). split; [now apply string_to_sign_user|].
      intros E. rewrite !app_assoc in E. apply app_inv_tail in E. apply Hd.
      now apply app_inv_tail in E.
  - intros op s r r' u u' m Hm Hd.
    destruct (string_to_sign_shape _ _ _ _ _ Hm) as [[-> Hop] | [-> Hop]].
    + destruct Hd as [[Hd _] | [_ Hd]]; [|tauto].
      exists (js_str s ++ [10] ++ js_str r'). split; [now apply string_to_sign_signin|].
      intros E. apply Hd. apply app_inv_head in E. now injection E.
    + destruct Hd as [[_ Hd] | [Hd _]].
      { exfalso. destruct Hop as [-> | [-> | [-> | ->]]], Hd as [Hd | Hd]; discriminate. }
      exists (js_str s ++ [10] ++ js_str u'). split; [now apply string_to_sign_user|].
      intros E. apply Hd. apply app_inv_head in E. now injection E.
  - intros op s s' r r' u u' m m' Hm Hm' Hw Hw' Hne Hv Hv'. split.
    + intros E. apply Hne. now apply buffer_from_string_inj.
    + destruct (validate_recognized _ _ _ _ _ _ Hv) as (_ & _ & m1 & Hm1 & E1).
      destruct (validate_recognized _ _ _ _ _ _ Hv') as (_ & _ & m2 & Hm2 & E2).
      rewrite Hm in Hm1. injection Hm1 as <-. rewrite Hm' in Hm2. injection Hm2 as <-.
      unfold computed_signature in E1, E2. fold key in E1, E2.
      apply base64_encode_inj; [apply hmac_bytes | apply hmac_bytes | congruence].
Qed.

Lemma validateApimSignature_spec_witness :
  validateApimSignature env0 (Some (lit "SignIn")) (Some (lit "s")) (Some (lit "/x")) None
    (Some (computed_signature key0 (lit "s" ++ [10] ++ lit "/x"))) = true.
Proof.
  apply (proj1 (validateApimSignature_spec env0
           (Some (computed_signature key0 (lit "s" ++ [10] ++ lit "/x")))
           ltac:(reflexivity) ltac:(vm_compute; reflexivity))).
  - now left.
  - reflexivity.
Defined.

(** C2: a SignOut request with a valid signature is answered 400
    "Unsupported operation", with no redirect and no request sent: the
    handler has no SignOut branch. *)
Theorem delegation_SignOut_unsupported env net url_parse query w :
  query "operation"%string = Some (lit "SignOut") ->
  validateApimSignature env (query "operation"%string) (query "salt"%string)
    (query "returnUrl"%string) (query "userId"%string) (query "sig"%string) = true ->
  delegation env net url_parse query w = (Ok (fail_with 400 "Unsupported operation"), w).
Proof.
  intros Hop Hv. apply delegation_not_signin; [exact Hv|]. now rewrite Hop.
Qed.

Lemma delegation_SignOut_unsupported_witness :
  delegation env0 net0 url_parse0 q_signout w0 = (Ok (fail_with 400 "Unsupported operation"), w0).
Proof.
  apply delegation_SignOut_unsupported; vm_compute; reflexivity.
Defined.

(** C3 (as the code has it): an operation outside the six recognized ones
    fails the signature check, so the handler answers 401 "Invalid
    signature", the signature-failure response, whatever the signature;
    400 "Unsupported operation" is only given to a recognized operation
    other than SignIn whose signature is valid. *)
Theorem delegation_unknown_operation env net url_parse query w :
  (~ (query "operation"%string = Some (lit "SignIn") \/ query "operation"%string = Some (lit "SignUp")
      \/ query "operation"%string = Some (lit "ChangePassword")
      \/ query "operation"%string = Some (lit "ChangeProfile")
      \/ query "operation"%string = Some (lit "CloseAccount")
      \/ query "operation"%string = Some (lit "SignOut")) ->
   delegation env net url_parse query w = (Ok (fail_with 401 "Invalid signature"), w))
  /\ (query "operation"%string <> Some (lit "SignIn") ->
      validateApimSignature env (query "operation"%string) (query "salt"%string)
        (query "returnUrl"%string) (query "userId"%string) (query "sig"%string) = true ->
      delegation env net url_parse query w = (Ok (fail_with 400 "Unsupported operation"), w))
  /\ (fst (delegation env net url_parse query w) = Ok (fail_with 400 "Unsupported operation") ->
      (query "operation"%string = Some (lit "SignUp")
       \/ query "operation"%string = Some (lit "ChangePassword")
       \/ query "operation"%string = Some (lit "ChangeProfile")
       \/ query "operation"%string = Some (lit "CloseAccount")
       \/ query "operation"%string = Some (lit "SignOut"))
      /\ validateApimSignature env (query "operation"%string) (query "salt"%string)
           (query "returnUrl"%string) (query "userId"%string) (query "sig"%string) = true).
Proof.
  split; [|split].
  - intros Hop. unfold delegation. cbv zeta. rewrite try_catch_app.
    rewrite validate_unknown by (now apply string_to_sign_none). reflexivity.
  - intros Hop Hv. apply delegation_not_signin; [exact Hv|].
    unfold is_op. now apply bool_decide_eq_false.
  - intros E.
    destruct (validateApimSignature env (query "operation"%string) (query "salt"%string)
                (query "returnUrl"%string) (query "userId"%string) (query "sig"%string)) eqn:Hv.
    + destruct (is_op (query "operation"%string) "SignIn") eqn:Hop.
      * pose proof (delegation_signin_not_400 env net url_parse query Hv Hop w) as Hh.
        rewrite E in Hh. cbn in Hh. lia.
      * split; [|reflexivity].
        assert (Hs : string_to_sign (query "operation"%string) (query "salt"%string)
                       (query "returnUrl"%string) (query "userId"%string) <> None).
        { intros Hn. rewrite (validate_unknown env _ _ _ _ (query "sig"%string) Hn) in Hv. discriminate. }
        apply string_to_sign_some in Hs. unfold is_op in Hop. apply bool_decide_eq_false in Hop.
        tauto.
    + unfold delegation in E. cbv zeta in E. rewrite try_catch_app, Hv in E. discriminate.
Qed.

Lemma delegation_unknown_operation_witness :
  delegation env0 net0 url_parse0 q_unknown w0 = (Ok (fail_with 401 "Invalid signature"), w0).
Proof.
  apply (proj1 (delegation_unknown_operation env0 net0 url_parse0 q_unknown w0)).
  vm_compute. intros H. repeat destruct H as [H|H]; discriminate.
Defined.

(** C3, counterexample: operation "Foo", signed as a SignIn would be, gets
    401 "Invalid signature", not 400. *)
Lemma delegation_unknown_operation_counterexample :
  fst (delegation env0 net0 url_parse0 q_unknown w0) = Ok (fail_with 401 "Invalid signature").
Proof. vm_compute. reflexivity. Qed.

(** C4: an entry younger than [CACHE_TTL] (3600000 ms) is returned and
    nothing else happens (no request, the world unchanged); with no entry,
    or an entry at least [CACHE_TTL] old, the call is the discovery fetch
    (with its fallback), which sends the discovery request. *)
Theorem discoverOidcEndpoints_cache env net url_parse issuer :
  CACHE_TTL = 3600000
  /\ (forall w e, discoveryCache w !! issuer = Some e -> clock w - entry_timestamp e < CACHE_TTL ->
      discoverOidcEndpoints env net url_parse issuer w = (Ok (endpoints e), w))
  /\ (forall w, (forall e, discoveryCache w !! issuer = Some e -> CACHE_TTL <= clock w - entry_timestamp e) ->
      discoverOidcEndpoints env net url_parse issuer w = discover_fetch env net url_parse issuer w
      /\ (forall u, url_parse (issuer ++ lit "/.well-known/openid-configuration") None = Some u ->
          requests (snd (discoverOidcEndpoints env net url_parse issuer w))
          = requests w ++ [mk_request (lit "GET") (issuer ++ lit "/.well-known/openid-configuration") []])).
Proof.
  split; [reflexivity|split].
  - intros w e He Ht. unfold discoverOidcEndpoints. rewrite bind_app.
    unfold cache_get. rewrite He. rewrite Date_now_bind.
    rewrite (proj2 (Z.ltb_lt _ _) Ht). reflexivity.
  - intros w Hst.
    pose proof (discover_not_fresh env net url_parse issuer w Hst) as E.
    split; [exact E|]. intros u Hu. rewrite E. apply (discover_fetch_sends env net url_parse issuer u Hu).
Qed.

Lemma discoverOidcEndpoints_cache_witness :
  discoverOidcEndpoints env0 net0 url_parse0 issuer0 w_cached = (Ok (endpoints entry0), w_cached).
Proof.
  apply (proj1 (proj2 (discoverOidcEndpoints_cache env0 net0 url_parse0 issuer0))).
  - vm_compute. reflexivity.
  - vm_compute. reflexivity.
Defined.

(** C5: when the discovery fetch fails (the URL does not parse, a network
    error, a status outside 2xx, or a body [JSON.parse] refuses, the empty
    body among them), a discovery call that finds no fresh entry returns
    the fallback endpoints (the issuer followed by each configured or
    conventional path) without throwing, the cache is left as it was, and
    so the next call for an issuer with no entry fetches again. *)
Theorem discoverOidcEndpoints_fallback env net url_parse issuer w :
  let discoveryUrl := issuer ++ lit "/.well-known/openid-configuration" in
  let req := mk_request (lit "GET") discoveryUrl [] in
  (forall e, discoveryCache w !! issuer = Some e -> CACHE_TTL <= clock w - entry_timestamp e) ->
  (url_parse discoveryUrl None = None
   \/ fst (net (requests w) req) = NetError
   \/ (exists st body, fst (net (requests w) req) = Response st body
       /\ (~ (200 <= st < 300) \/ json_parse body = None))) ->
  json_parse [] = None
  /\ exists w', discoverOidcEndpoints env net url_parse issuer w = (Ok (fallback_endpoints env issuer), w')
     /\ discoveryCache w' = discoveryCache w
     /\ (discoveryCache w !! issuer = None ->
         discoverOidcEndpoints env net url_parse issuer w' = discover_fetch env net url_parse issuer w').
Proof.
  intros discoveryUrl req Hst Hfail. split; [apply json_parse_empty|].
  rewrite (discover_not_fresh env net url_parse issuer w Hst).
  enough (H : exists w', discover_fetch env net url_parse issuer w = (Ok (fallback_endpoints env issuer), w')
                         /\ discoveryCache w' = discoveryCache w).
  { destruct H as (w' & E & Ec). exists w'. split; [exact E|]. split; [exact Ec|].
    intros Hn. apply discover_not_fresh. rewrite Ec, Hn. discriminate. }
  unfold discover_fetch. rewrite try_catch_app, bind_app. unfold httpsGet.
  fold discoveryUrl. fold req.
  destruct (url_parse discoveryUrl None) as [u|] eqn:Hu.
  2: { exists w. split; reflexivity. }
  rewrite bind_app. unfold send. destruct (net (requests w) req) as [res dt] eqn:En.
  cbn [fst] in Hfail.
  destruct Hfail as [Hu' | [Hn | (st & body & Hr & Hb)]]; [congruence | subst res |].
  - eexists. cbn. split; reflexivity.
  - subst res. destruct ((200 <=? st) && (st <? 300)) eqn:Ec.
    + apply andb_true_iff in Ec as [E1 E2]. apply Z.leb_le in E1. apply Z.ltb_lt in E2.
      destruct Hb as [Hb | Hb]; [lia|]. rewrite Hb.
      eexists. cbn. split; reflexivity.
    + eexists. cbn. split; reflexivity.
Qed.

Lemma discoverOidcEndpoints_fallback_witness :
  exists w', discoverOidcEndpoints env0 net0 url_parse0 issuer0 w0
             = (Ok (fallback_endpoints env0 issuer0), w').
Proof.
  destruct (discoverOidcEndpoints_fallback env0 net0 url_parse0 issuer0 w0) as [_ (w' & E & _)].
  - intros e He. vm_compute in He. discriminate.
  - right. left. vm_compute. reflexivity.
  - exists w'. exact E.
Defined.

(** C6: for a request with a code and a state that decodes to an object
    with an integer timestamp [ts], the callback answers 400 "State
    parameter expired" exactly when [now - ts > 600000], and then it has
    sent nothing and changed nothing; a newer state passes the check. *)
Theorem callback_state_expired env net url_parse query w sd ts :
  truthy_str (query "code"%string) = true -> truthy_str (query "state"%string) = true ->
  decode_state (js_str (query "state"%string)) = Some sd ->
  prop (Some sd) "timestamp" = Val (Some (JNum (mkdec ts 0))) ->
  (fst (callback env net url_parse query w) = Ok (fail_with 400 "State parameter expired")
   <-> clock w - ts > 600000)
  /\ (clock w - ts > 600000 ->
      callback env net url_parse query w = (Ok (fail_with 400 "State parameter expired"), w)).
Proof.
  intros Hc Hs Hd Ht.
  assert (Ex : expired (clock w) (Fin (mkdec ts 0)) = (600000 <? clock w - ts)).
  { unfold expired. change (10 ^ 0) with 1. rewrite Z.mul_1_r. reflexivity. }
  split.
  - rewrite (callback_expired_iff env net url_parse query w sd _ _ Hc Hs Hd Ht eq_refl), Ex.
    rewrite Z.ltb_lt. lia.
  - intros Hgt. apply (callback_checked env net url_parse query w sd _ _ Hc Hs Hd Ht eq_refl).
    rewrite Ex. apply Z.ltb_lt. lia.
Qed.

Lemma callback_state_expired_witness :
  callback env0 net0 url_parse0 (q_callback state_old) w0
  = (Ok (fail_with 400 "State parameter expired"), w0).
Proof.
  apply (proj2 (callback_state_expired env0 net0 url_parse0 (q_callback state_old) w0
    (JObj (state_members (mk_state (Some (lit "/home")) (Some (lit "s")) None 100000))) 100000
    ltac:(reflexivity) ltac:(reflexivity) ltac:(vm_compute; reflexivity) ltac:(vm_compute; reflexivity))).
  vm_compute. reflexivity.
Defined.




(** C8: the state the delegation handler encodes decodes, in the callback,
    to an object whose returnUrl, salt and userId read back as the original
    strings (absent when they were [undefined]) and whose timestamp reads
    back as the original number. *)
Theorem state_roundtrip sd :
  opt_units_ok (returnUrl sd) -> opt_units_ok (salt sd) -> opt_units_ok (userId sd) ->
  Z.abs (timestamp sd) < 10 ^ 21 ->
  exists v, decode_state (encode_state sd) = Some v
    /\ prop (Some v) "returnUrl" = Val (option_map JStr (returnUrl sd))
    /\ prop (Some v) "salt" = Val (option_map JStr (salt sd))
    /\ prop (Some v) "userId" = Val (option_map JStr (userId sd))
    /\ prop (Some v) "timestamp" = Val (Some (JNum (mkdec (timestamp sd) 0))).
Proof.
  intros H1 H2 H3 H4. exists (JObj (state_members sd)).
  split; [now apply decode_encode_state|].
  destruct sd as [[r|] [s|] [u|] ts]; repeat split; reflexivity.
Qed.

Lemma state_roundtrip_witness :
  exists v, decode_state (encode_state (mk_state (Some (lit "/home")) (Some (lit "s")) None 1000000)) = Some v
    /\ prop (Some v) "returnUrl" = Val (Some (JStr (lit "/home"))).
Proof.
  destruct (state_roundtrip (mk_state (Some (lit "/home")) (Some (lit "s")) None 1000000))
    as (v & Ev & Er & _).
  - cbn. repeat (constructor || lia).
  - cbn. repeat (constructor || lia).
  - exact I.
  - cbn. lia.
  - exists v. split; assumption.
Defined.




(** C10: the APIM user id has the email's length, and at each position it
    has ['_'] where the email has ['.'] or its first ['@'], and the
    email's own character everywhere else. *)
Theorem apim_user_id_spec email :
  length (apim_user_id email) = length email
  /\ (forall j c, email !! j = Some c ->
      apim_user_id email !! j
      = Some (if (c =? 46) || ((c =? 64) && negb (existsb (fun d => d =? 64) (take j email)))
              then 95 else c)).
Proof.
  unfold apim_user_id, replace_all_dots. split.
  - rewrite length_map. apply replace_first_length.
  - intros j c Hj. rewrite lookup_map, (replace_first_at email j c Hj). cbn [option_map].
    destruct (Z.eqb_spec c 64) as [-> | Hc]; cbn.
    + now destruct (existsb _ _).
    + destruct (Z.eqb_spec c 46); reflexivity.
Qed.

Lemma apim_user_id_spec_witness :
  apim_user_id (lit "a.b+c@x.y.com") !! 5%nat = Some 95.
Proof.
  exact (proj2 (apim_user_id_spec (lit "a.b+c@x.y.com")) 5%nat 64 eq_refl).
Defined.

(* ------------------------------------------------------------------ *)
(** ** Further properties of the code *)

(** The callback answers 400 "Missing code or state parameter" when the
    code or the state is missing or empty, and then it has sent nothing
    and changed nothing. *)
Theorem callback_missing_code_or_state env net url_parse query w :
  truthy_str (query "code"%string) && truthy_str (query "state"%string) = false ->
  callback env net url_parse query w = (Ok (fail_with 400 "Missing code or state parameter"), w).
Proof.
  intros H. rewrite callback_after_prefix. unfold callback_prefix. cbv zeta. rewrite H. reflexivity.
Qed.

Lemma callback_missing_code_or_state_witness :
  callback env0 net0 url_parse0 (query_of [("code", lit "c")]%string) w0
  = (Ok (fail_with 400 "Missing code or state parameter"), w0).
Proof. apply callback_missing_code_or_state. reflexivity. Defined.

(** A state that is not base64 of a JSON text is answered 400 "Invalid
    state parameter", with nothing sent and nothing changed. *)
Theorem callback_invalid_state env net url_parse query w :
  truthy_str (query "code"%string) = true -> truthy_str (query "state"%string) = true ->
  decode_state (js_str (query "state"%string)) = None ->
  callback env net url_parse query w = (Ok (fail_with 400 "Invalid state parameter"), w).
Proof.
  intros Hc Hs Hd. rewrite callback_after_prefix. unfold callback_prefix. cbv zeta.
  rewrite Hc, Hs. cbn [andb negb]. rewrite Hd. reflexivity.
Qed.

Lemma callback_invalid_state_witness :
  callback env0 net0 url_parse0 (q_callback (lit "x")) w0 = (Ok (fail_with 400 "Invalid state parameter"), w0).
Proof. apply callback_invalid_state; vm_compute; reflexivity. Defined.

(** With a fresh state but one of the four OIDC settings missing or empty,
    the callback answers 500 "Server configuration error" before any
    request (no discovery either) and changes nothing. *)
Theorem callback_config_error env net url_parse query w sd v n :
  truthy_str (query "code"%string) = true -> truthy_str (query "state"%string) = true ->
  decode_state (js_str (query "state"%string)) = Some sd ->
  prop (Some sd) "timestamp" = Val v -> to_number v = Some n -> expired (clock w) n = false ->
  truthy_str (env "OIDC_ISSUER"%string) && truthy_str (env "OIDC_CLIENT_ID"%string)
  && truthy_str (env "OIDC_CLIENT_SECRET"%string) && truthy_str (env "OIDC_REDIRECT_URI"%string) = false ->
  callback env net url_parse query w = (Ok (fail_with 500 "Server configuration error"), w).
Proof.
  intros Hc Hs Hd Ht Hn He Hcfg. rewrite callback_after_prefix. unfold callback_prefix. cbv zeta.
  rewrite Hc, Hs. cbn [andb negb]. rewrite Hd.
  rewrite Date_now_bind, Ht. cbn [of_read]. rewrite ret_bind, Hn. cbn [of_option].
  rewrite ret_bind, He. rewrite bind_app, try_catch_app, bind_app.
  rewrite (getOidcConfiguration_fail env net url_parse w Hcfg). reflexivity.
Qed.

Lemma callback_config_error_witness :
  callback env_key_only net0 url_parse0 (q_callback state_home) w0
  = (Ok (fail_with 500 "Server configuration error"), w0).
Proof.
  apply (callback_config_error env_key_only net0 url_parse0 (q_callback state_home) w0 stateData_home
           (Some (JNum (mkdec 1000000 0))) (Fin (mkdec 1000000 0))); vm_compute; reflexivity.
Defined.

(** Without the validation key, or without a signature, every delegation
    request is answered 401 "Invalid signature", with nothing sent. *)
Theorem delegation_missing_key_or_sig env net url_parse query w :
  truthy_str (env "APIM_VALIDATION_KEY"%string) && truthy_str (query "sig"%string) = false ->
  delegation env net url_parse query w = (Ok (fail_with 401 "Invalid signature"), w).
Proof.
  intros H. unfold delegation. cbv zeta. rewrite try_catch_app.
  unfold validateApimSignature.
  destruct (truthy_str (env "APIM_VALIDATION_KEY"%string)), (truthy_str (query "sig"%string));
    try discriminate; reflexivity.
Qed.

Lemma delegation_missing_key_or_sig_witness :
  delegation env_nokey net0 url_parse0 q_signin w0 = (Ok (fail_with 401 "Invalid signature"), w0).
Proof. apply delegation_missing_key_or_sig. reflexivity. Defined.

(** A valid SignIn whose OIDC configuration cannot be loaded is answered
    500 "Server configuration error" (in the world the failed loading
    left). *)
Theorem delegation_signin_config_error env net url_parse query w w1 :
  query "operation"%string = Some (lit "SignIn") ->
  validateApimSignature env (query "operation"%string) (query "salt"%string)
    (query "returnUrl"%string) (query "userId"%string) (query "sig"%string) = true ->
  getOidcConfiguration env net url_parse w = (Throw, w1) ->
  delegation env net url_parse query w = (Ok (fail_with 500 "Server configuration error"), w1).
Proof.
  intros Hop Hv Hg. unfold delegation. cbv zeta. rewrite try_catch_app, Hv, Hop.
  cbn [negb]. change (is_op (Some (lit "SignIn")) "SignIn") with true. cbv iota.
  rewrite bind_app, try_catch_app, bind_app, Hg. reflexivity.
Qed.

Lemma delegation_signin_config_error_witness :
  delegation env_key_only net0 url_parse0 q_signin w0 = (Ok (fail_with 500 "Server configuration error"), w0).
Proof. apply delegation_signin_config_error; vm_compute; reflexivity. Defined.



(** The handler of [src/delegation/index.js]: a valid SignIn with the
    three Okta settings set redirects (302) to [OKTA_ISSUER/v1/authorize]
    with the same five query parameters, the state encoding returnUrl,
    salt, userId and the current time; it sends nothing. With one of the
    settings missing or empty it answers 500 "Server configuration
    error". *)
Theorem okta_delegation_signin env query w :
  query "operation"%string = Some (lit "SignIn") ->
  validateApimSignature env (query "operation"%string) (query "salt"%string)
    (query "returnUrl"%string) (query "userId"%string) (query "sig"%string) = true ->
  (truthy_str (env "OKTA_ISSUER"%string) && truthy_str (env "OKTA_CLIENT_ID"%string)
   && truthy_str (env "OKTA_REDIRECT_URI"%string) = true ->
   okta_delegation env query w =
   (Ok (redirect (js_str (env "OKTA_ISSUER"%string) ++ lit "/v1/authorize?" ++ form_serialize
      [(lit "client_id", js_str (env "OKTA_CLIENT_ID"%string)); (lit "response_type", lit "code");
       (lit "scope", lit "openid profile email");
       (lit "redirect_uri", js_str (env "OKTA_REDIRECT_URI"%string));
       (lit "state", encode_state (mk_state (query "returnUrl"%string) (query "salt"%string)
                                           (query "userId"%string) (clock w)))])), w))
  /\ (truthy_str (env "OKTA_ISSUER"%string) && truthy_str (env "OKTA_CLIENT_ID"%string)
      && truthy_str (env "OKTA_REDIRECT_URI"%string) = false ->
      okta_delegation env query w = (Ok (fail_with 500 "Server configuration error"), w)).
Proof.
  intros Hop Hv. unfold okta_delegation. cbv zeta. rewrite try_catch_app, Hv, Hop.
  cbn [negb]. change (is_op (Some (lit "SignIn")) "SignIn") with true. cbv iota.
  split; intros H;
    destruct (truthy_str (env "OKTA_ISSUER"%string)), (truthy_str (env "OKTA_CLIENT_ID"%string)),
      (truthy_str (env "OKTA_REDIRECT_URI"%string)); try discriminate; reflexivity.
Qed.

Lemma okta_delegation_signin_witness :
  okta_delegation env_okta q_signin w0 =
  (Ok (redirect (lit "https://okta/v1/authorize?" ++ form_serialize
     [(lit "client_id", lit "oid"); (lit "response_type", lit "code");
      (lit "scope", lit "openid profile email"); (lit "redirect_uri", lit "https://app/cb");
      (lit "state", encode_state (mk_state (Some (lit "/x")) (Some (lit "s")) None 1000000))])), w0)
  /\ okta_delegation env0 q_signin w0 = (Ok (fail_with 500 "Server configuration error"), w0).
Proof.
  split.
  - rewrite (proj1 (okta_delegation_signin env_okta q_signin w0 ltac:(reflexivity)
             q_signin_valid_okta) ltac:(reflexivity)).
    vm_compute. reflexivity.
  - rewrite (proj2 (okta_delegation_signin env0 q_signin w0 ltac:(reflexivity)
             q_signin_valid) ltac:(reflexivity)).
    reflexivity.
Defined.

(** The two delegation handlers differ only on a valid SignIn: on every
    other request both answer the same (401 or 400) and send nothing. *)
Theorem okta_delegation_agrees env net url_parse query w :
  validateApimSignature env (query "operation"%string) (query "salt"%string)
    (query "returnUrl"%string) (query "userId"%string) (query "sig"%string)
  && is_op (query "operation"%string) "SignIn" = false ->
  okta_delegation env query w = delegation env net url_parse query w
  /\ snd (delegation env net url_parse query w) = w.
Proof.
  intros H. unfold okta_delegation, delegation. cbv zeta. rewrite !try_catch_app.
  destruct (validateApimSignature _ _ _ _ _ _); cbn [negb andb] in H |- *.
  - rewrite H. split; reflexivity.
  - split; reflexivity.
Qed.

Lemma okta_delegation_agrees_witness :
  okta_delegation env0 q_unknown w0 = delegation env0 net0 url_parse0 q_unknown w0
  /\ snd (delegation env0 net0 url_parse0 q_unknown w0) = w0.
Proof. apply okta_delegation_agrees. vm_compute. reflexivity. Defined.

(** [validateOidcConfig()] answers whether the four OIDC settings are all
    set and non-empty; it never throws and has no effect. *)
Theorem validateOidcConfig_spec env w :
  validateOidcConfig env w =
  (Ok (truthy_str (env "OIDC_ISSUER"%string) && truthy_str (env "OIDC_CLIENT_ID"%string)
       && truthy_str (env "OIDC_CLIENT_SECRET"%string) && truthy_str (env "OIDC_REDIRECT_URI"%string)), w).
Proof.
  unfold validateOidcConfig. rewrite try_catch_app, bind_app.
  destruct (truthy_str (env "OIDC_ISSUER"%string) && truthy_str (env "OIDC_CLIENT_ID"%string)
       && truthy_str (env "OIDC_CLIENT_SECRET"%string) && truthy_str (env "OIDC_REDIRECT_URI"%string)) eqn:H.
  - rewrite (getOidcConfig_ok env H). reflexivity.
  - rewrite (getOidcConfig_fail env H). reflexivity.
Qed.

(** After [clearDiscoveryCache()], a discovery call always fetches: when
    the discovery URL parses, exactly the discovery request is sent. *)
Theorem clearDiscoveryCache_refetch env net url_parse issuer w u :
  url_parse (issuer ++ lit "/.well-known/openid-configuration") None = Some u ->
  let m := (_ ← clearDiscoveryCache; discoverOidcEndpoints env net url_parse issuer) in
  m w = discover_fetch env net url_parse issuer (mk_world ∅ (clock w) (requests w))
  /\ requests (snd (m w))
     = requests w ++ [mk_request (lit "GET") (issuer ++ lit "/.well-known/openid-configuration") []].
Proof.
  intros Hu m. unfold m. rewrite bind_app. cbn [clearDiscoveryCache].
  rewrite discover_not_fresh by (intros e He; cbn [discoveryCache] in He; rewrite lookup_empty in He; discriminate).
  split; [reflexivity|].
  apply (discover_fetch_sends env net url_parse issuer u Hu (mk_world ∅ (clock w) (requests w))).
Qed.

Lemma clearDiscoveryCache_refetch_witness :
  requests (snd ((_ ← clearDiscoveryCache; discoverOidcEndpoints env0 net0 url_parse0 issuer0) w_cached))
  = [mk_request (lit "GET") (issuer0 ++ lit "/.well-known/openid-configuration") []].
Proof.
  exact (proj2 (clearDiscoveryCache_refetch env0 net0 url_parse0 issuer0 w_cached
                  (mk_url (issuer0 ++ lit "/.well-known/openid-configuration") [] []) eq_refl)).
Defined.

(** A successful discovery (2xx, a JSON object) returns the endpoints the
    document names, caches them with the time the response arrived, and a
    call made right after is answered from the cache with nothing sent. *)
Theorem discovery_success_cached env net url_parse issuer w u st body dt ms :
  let discoveryUrl := issuer ++ lit "/.well-known/openid-configuration" in
  let req := mk_request (lit "GET") discoveryUrl [] in
  let eps := mk_endpoints (obj_get (lit "authorization_endpoint") ms) (obj_get (lit "token_endpoint") ms)
               (obj_get (lit "userinfo_endpoint") ms) (obj_get (lit "end_session_endpoint") ms)
               (obj_get (lit "issuer") ms) in
  (forall e, discoveryCache w !! issuer = Some e -> CACHE_TTL <= clock w - entry_timestamp e) ->
  url_parse discoveryUrl None = Some u ->
  net (requests w) req = (Response st body, dt) -> 200 <= st < 300 ->
  json_parse body = Some (JObj ms) ->
  exists w', discoverOidcEndpoints env net url_parse issuer w = (Ok eps, w')
    /\ discoveryCache w' = <[issuer := mk_entry eps (clock w')]> (discoveryCache w)
    /\ requests w' = requests w ++ [req]
    /\ discoverOidcEndpoints env net url_parse issuer w' = (Ok eps, w').
Proof.
  intros discoveryUrl req eps Hst Hu Hn Hs Hj.
  rewrite (discover_not_fresh env net url_parse issuer w Hst).
  rewrite (discover_fetch_success env net url_parse issuer w u st body dt (JObj ms) eps Hu Hn Hs Hj
             eq_refl).
  eexists. split; [reflexivity|]. split; [reflexivity|]. split; [reflexivity|].
  apply (discover_cached_fresh env net url_parse issuer _ (mk_entry eps (clock w + dt))).
  - cbn [discoveryCache]. by simplify_map_eq.
  - cbn. unfold CACHE_TTL. lia.
Qed.

Lemma discovery_success_cached_witness :
  exists w', discoverOidcEndpoints env0 (net_doc discovery_doc) url_parse0 issuer0 w0
    = (Ok (mk_endpoints (Some (JStr (lit "https://iss/a"))) (Some (JStr (lit "https://iss/t"))) None None None), w')
    /\ discoverOidcEndpoints env0 (net_doc discovery_doc) url_parse0 issuer0 w'
    = (Ok (mk_endpoints (Some (JStr (lit "https://iss/a"))) (Some (JStr (lit "https://iss/t"))) None None None), w').
Proof.
  destruct (discovery_success_cached env0 (net_doc discovery_doc) url_parse0 issuer0 w0
              (mk_url (issuer0 ++ lit "/.well-known/openid-configuration") [] []) 200 discovery_doc 2
              discovery_members) as (w' & E1 & _ & _ & E2).
  - intros e He. vm_compute in He. discriminate.
  - reflexivity.
  - vm_compute. reflexivity.
  - lia.
  - vm_compute. reflexivity.
  - exists w'. split; [exact E1 | exact E2].
Defined.

(** A 2xx discovery answer whose JSON is not an object (a string, a
    number, a boolean or an array) is not a failure: an endpoint set with
    every endpoint undefined is returned and cached. *)
Theorem discovery_non_object_cached env net url_parse issuer w u st body dt v :
  let discoveryUrl := issuer ++ lit "/.well-known/openid-configuration" in
  let req := mk_request (lit "GET") discoveryUrl [] in
  let none := mk_endpoints None None None None None in
  (forall e, discoveryCache w !! issuer = Some e -> CACHE_TTL <= clock w - entry_timestamp e) ->
  url_parse discoveryUrl None = Some u ->
  net (requests w) req = (Response st body, dt) -> 200 <= st < 300 ->
  json_parse body = Some v -> v <> JNull -> (forall ms, v <> JObj ms) ->
  discoverOidcEndpoints env net url_parse issuer w
  = (Ok none, mk_world (<[issuer := mk_entry none (clock w + dt)]> (discoveryCache w))
                       (clock w + dt) (requests w ++ [req])).
Proof.
  intros discoveryUrl req none Hst Hu Hn Hs Hj Hnull Hobj.
  rewrite (discover_not_fresh env net url_parse issuer w Hst).
  apply (discover_fetch_success env net url_parse issuer w u st body dt v none Hu Hn Hs Hj).
  destruct v as [| b | d | s | vs | ms]; try reflexivity; [contradiction|].
  exfalso. exact (Hobj ms eq_refl).
Qed.

Lemma discovery_non_object_cached_witness :
  discoverOidcEndpoints env0 (net_doc (lit "[]")) url_parse0 issuer0 w0
  = (Ok (mk_endpoints None None None None None),
     mk_world {[ issuer0 := mk_entry (mk_endpoints None None None None None) 1000002 ]} 1000002
       [mk_request (lit "GET") (issuer0 ++ lit "/.well-known/openid-configuration") []]).
Proof.
  apply (discovery_non_object_cached env0 (net_doc (lit "[]")) url_parse0 issuer0 w0
           (mk_url (issuer0 ++ lit "/.well-known/openid-configuration") [] []) 200 (lit "[]") 2 (JArr [])).
  - intros e He. vm_compute in He. discriminate.
  - reflexivity.
  - vm_compute. reflexivity.
  - lia.
  - vm_compute. reflexivity.
  - discriminate.
  - intros ms. discriminate.
Defined.

(** [searchParams.set(name, value)] leaves exactly one pair named [name],
    carrying [value], and every other pair in place and in order. *)
Theorem params_set_spec name value u :
  filter (fun p : list Z * list Z => fst p = name) (url_query (params_set name value u)) = [(name, value)]
  /\ filter (fun p : list Z * list Z => fst p <> name) (url_query (params_set name value u))
     = filter (fun p : list Z * list Z => fst p <> name) (url_query u).
Proof.
  unfold params_set. cbn [url_query]. destruct (existsb _ _) eqn:E.
  - split; [now apply set_first_same | apply set_first_other].
  - rewrite !filter_app, (filter_same_none name _ E). rewrite !filter_cons, !filter_nil. cbn [fst].
    split.
    + case_decide; [reflexivity | contradiction].
    + case_decide; [contradiction|]. apply app_nil_r.
Qed.

(** [new URLSearchParams({...}).toString()] is injection-free: for any
    names and values (well-formed strings), the text has one [&] between
    consecutive pairs and one [=] per pair, and no other [&] or [=], since
    the encoder escapes them. *)
Theorem form_serialize_shape q :
  Forall (fun p => units_ok (fst p) /\ units_ok (snd p)) q ->
  count_occ Z.eq_dec (form_serialize q) 38 = pred (length q)
  /\ count_occ Z.eq_dec (form_serialize q) 61 = length q.
Proof.
  intros Hq. unfold form_serialize. split.
  - rewrite count_join_sep by
      (apply Forall_map; eapply Forall_impl; [exact Hq|]; intros [n v] [Hn Hv]; cbn [fst snd];
       rewrite !count_occ_app, !form_encode_no by (assumption || lia); reflexivity).
    now rewrite length_map.
  - rewrite count_join_other by lia.
    induction Hq as [|[n v] r [Hn Hv] _ IH]; [reflexivity|].
    cbn [map fold_right fst snd length]. rewrite IH, !count_occ_app.
    rewrite !form_encode_no by (assumption || lia). cbn. lia.
Qed.

Lemma form_serialize_shape_witness :
  count_occ Z.eq_dec (form_serialize [(lit "a", lit "x&y=z"); (lit "b", lit "=")]) 38 = 1%nat
  /\ count_occ Z.eq_dec (form_serialize [(lit "a", lit "x&y=z"); (lit "b", lit "=")]) 61 = 2%nat.
Proof.
  apply (form_serialize_shape [(lit "a", lit "x&y=z"); (lit "b", lit "=")]).
  constructor; [split; apply units_ok_check; reflexivity|].
  constructor; [split; apply units_ok_check; reflexivity|]. constructor.
Defined.

(** [encodeURIComponent] only ever emits unreserved characters and [%]
    escapes (two upper-case hex digits): no [&], [=], [?], [#], [/] or
    space can come out of it. *)
Theorem encodeURIComponent_safe s e :
  units_ok s -> encodeURIComponent s = Some e ->
  Forall (fun c => uri_unreserved c = true \/ c = 37) e.
Proof.
  intros Hs. unfold encodeURIComponent. cbv zeta.
  destruct (existsb _ (code_points s)) eqn:Esur; [discriminate|]. intros E. injection E as <-.
  apply List.Forall_forall. intros x Hx. apply in_flat_map in Hx as (c & Hc & Hx).
  destruct (uri_unreserved c) eqn:Ec.
  - destruct Hx as [<-|[]]. now left.
  - apply in_flat_map in Hx as (b & Hb & Hx).
    assert (Hsc : is_scalar c = true).
    { pose proof (proj1 (List.Forall_forall _ _) (code_points_range s Hs) c Hc) as Hr.
      cbv beta in Hr. apply is_scalar_spec. split; [exact Hr|].
      intros Hsur. destruct ((55296 <=? c) && (c <=? 57343)) eqn:Hn.
      - rewrite (proj2 (existsb_exists _ _) (ex_intro _ c (conj Hc Hn))) in Esur. discriminate.
      - rewrite (proj2 (Z.leb_le _ _)) in Hn by lia. rewrite (proj2 (Z.leb_le _ _)) in Hn by lia.
        discriminate. }
    assert (Hbb : byte_ok b).
    { pose proof (utf8_encode_bytes [c] (ltac:(constructor; [exact Hsc | constructor]))) as Hby.
      unfold utf8_encode in Hby. cbn [flat_map] in Hby. rewrite app_nil_r in Hby.
      exact (proj1 (List.Forall_forall _ _) Hby b Hb). }
    unfold byte_ok in Hbb.
    assert (Hhex : forall d, 0 <= d < 16 -> uri_unreserved (hex_upper d) = true).
    { intros d Hd. assert (d = 0 \/ d = 1 \/ d = 2 \/ d = 3 \/ d = 4 \/ d = 5 \/ d = 6 \/ d = 7
        \/ d = 8 \/ d = 9 \/ d = 10 \/ d = 11 \/ d = 12 \/ d = 13 \/ d = 14 \/ d = 15) as Hd' by lia.
      repeat destruct Hd' as [->|Hd']; try (subst d); reflexivity. }
    destruct Hx as [<-|[<-|[<-|[]]]].
    + now right.
    + left. apply Hhex. split; [apply Z.div_pos | apply Z.div_lt_upper_bound]; lia.
    + left. apply Hhex. apply Z.mod_pos_bound. lia.
Qed.

Lemma encodeURIComponent_safe_witness :
  Forall (fun c => uri_unreserved c = true \/ c = 37) (lit "a%26b%3Dc%20d%2F%3F%23").
Proof.
  apply (encodeURIComponent_safe (lit "a&b=c d/?#")).
  - apply units_ok_check. reflexivity.
  - vm_compute. reflexivity.
Defined.

(** When the userinfo has no (or an empty) [given_name] and
    [family_name] but a string [name], the user data take the first name
    from before the first space of [name] and the last name from after it
    (so that name = first + ' ' + last when there is a space, and the last
    name is empty when there is none). *)
Theorem make_user_data_name_split ms s w iso :
  js_truthy (obj_get (lit "given_name") ms) = false ->
  js_truthy (obj_get (lit "family_name") ms) = false ->
  obj_get (lit "name") ms = Some (JStr s) -> toISOString (clock w) = Some iso ->
  make_user_data (JObj ms) w
  = (Ok (mk_user_data (obj_get (lit "sub") ms) (obj_get (lit "email") ms)
           (Some (JStr (before_space s))) (Some (JStr (after_space s))) iso
           (lit "User authenticated via Okta")), w)
  /\ before_space s ++ (if existsb (fun c => c =? 32) s then 32 :: after_space s else []) = s.
Proof.
  intros Hg Hf Hn Ht. split; [|apply before_after_space].
  unfold make_user_data, or_empty. cbn [prop of_read]. rewrite !ret_bind.
  rewrite Hg, Hn. cbn [name_part]. rewrite !ret_bind. rewrite Hf. cbn [name_part]. rewrite !ret_bind.
  assert (Hv : forall l, (if js_truthy (Some (JStr l)) then Some (JStr l) else Some (JStr [])) = Some (JStr l))
    by (intros [|c l]; reflexivity).
  rewrite !Hv. rewrite Date_now_bind, Ht. reflexivity.
Qed.

Lemma make_user_data_name_split_witness :
  make_user_data (JObj [(lit "sub", JStr (lit "u1")); (lit "email", JStr (lit "a@b.c"));
                        (lit "name", JStr (lit "Ada King Lovelace"))]) w0
  = (Ok (mk_user_data (Some (JStr (lit "u1"))) (Some (JStr (lit "a@b.c")))
           (Some (JStr (lit "Ada"))) (Some (JStr (lit "King Lovelace"))) (lit "1970-01-01T00:16:40.000Z")
           (lit "User authenticated via Okta")), w0)
  /\ lit "Ada" ++ [32] ++ lit "King Lovelace" = lit "Ada King Lovelace".
Proof.
  destruct (make_user_data_name_split
              [(lit "sub", JStr (lit "u1")); (lit "email", JStr (lit "a@b.c"));
               (lit "name", JStr (lit "Ada King Lovelace"))] (lit "Ada King Lovelace") w0
              (lit "1970-01-01T00:16:40.000Z") eq_refl eq_refl eq_refl ltac:(vm_compute; reflexivity))
    as [E1 E2].
  split; [exact E1 | exact E2].
Defined.

(** Without credentials (no [APIM_ACCESS_TOKEN] and no managed identity),
    [getAzureAccessToken], [createOrUpdateUserInAPIM] and
    [getSharedAccessToken] all reject at once, sending nothing. *)
Theorem apim_no_credentials env net url_parse uid ud w :
  truthy_str (env "APIM_ACCESS_TOKEN"%string) = false ->
  truthy_str (env "IDENTITY_ENDPOINT"%string) && truthy_str (env "IDENTITY_HEADER"%string) = false ->
  getAzureAccessToken env net url_parse w = (Throw, w)
  /\ createOrUpdateUserInAPIM env net url_parse uid ud w = (Throw, w)
  /\ getSharedAccessToken env net url_parse uid w = (Throw, w).
Proof.
  intros H1 H2. pose proof (getAzureAccessToken_none env net url_parse H1 H2) as Hn.
  split; [|split].
  - now rewrite Hn.
  - unfold createOrUpdateUserInAPIM. destruct (_ && _ && _); [|reflexivity].
    rewrite bind_app, Hn. reflexivity.
  - unfold getSharedAccessToken. rewrite bind_app, Hn. reflexivity.
Qed.

Lemma apim_no_credentials_witness :
  createOrUpdateUserInAPIM env0 net0 url_parse0 (lit "a_b_c") ud_home w0 = (Throw, w0).
Proof.
  exact (proj1 (proj2 (apim_no_credentials env0 net0 url_parse0 (lit "a_b_c") ud_home w0
                         eq_refl eq_refl))).
Defined.

(** [createOrUpdateUserInAPIM] checks its three APIM settings first: with
    one missing or empty it rejects before any request, token request
    included. *)
Theorem createOrUpdateUserInAPIM_missing_settings env net url_parse uid ud w :
  truthy_str (env "APIM_SUBSCRIPTION_ID"%string) && truthy_str (env "APIM_RESOURCE_GROUP"%string)
  && truthy_str (env "APIM_SERVICE_NAME"%string) = false ->
  createOrUpdateUserInAPIM env net url_parse uid ud w = (Throw, w).
Proof. intros H. unfold createOrUpdateUserInAPIM. rewrite H. reflexivity. Qed.



Lemma createOrUpdateUserInAPIM_missing_settings_witness :
  createOrUpdateUserInAPIM env_token_only net_apim url_parse0 (lit "a_b_c") ud_home w0 = (Throw, w0).
Proof. apply createOrUpdateUserInAPIM_missing_settings. reflexivity. Defined.

(** [getSharedAccessToken] does not check the APIM settings: with a
    provided token it always sends one POST of [{}] to
    [.../users/<uid>/generateSsoUrl?api-version=2021-08-01], built with
    whatever the settings are (an unset one reads "undefined"), and
    resolves with the [value] member of the answer, [undefined] when the
    answer has none. *)
Theorem getSharedAccessToken_unchecked env net url_parse uid w c s u st body dt ms :
  let url := apim_base env ++ uid ++ lit "/generateSsoUrl?api-version=2021-08-01" in
  let req := mk_request (lit "POST") url (json_serialize (JObj [])) in
  env "APIM_ACCESS_TOKEN"%string = Some (c :: s) -> url_parse url None = Some u ->
  net (requests w) req = (Response st body, dt) -> 200 <= st < 300 ->
  json_parse (match body with [] => lit "{}" | _ => body end) = Some (JObj ms) ->
  getSharedAccessToken env net url_parse uid w
  = (Ok (obj_get (lit "value") ms), mk_world (discoveryCache w) (clock w + dt) (requests w ++ [req])).
Proof.
  cbv zeta. intros Hm Hu Hn Hst Hj. unfold getSharedAccessToken.
  rewrite (getAzureAccessToken_manual env net url_parse c s Hm), !ret_bind.
  cbn [js_to_string of_option]. rewrite ret_bind, bind_app.
  rewrite (http_json_app net url_parse _ _ _ w u st body dt Hu Hn), (is_2xx st Hst), Hj.
  reflexivity.
Qed.

Lemma getSharedAccessToken_unchecked_witness :
  getSharedAccessToken env_token_only net_apim url_parse0 (lit "a_b_c") w0
  = (Ok None, mk_world ∅ 1000001
       [mk_request (lit "POST") (lit "https://management.azure.com/subscriptions/undefined/resourceGroups/undefined/providers/Microsoft.ApiManagement/service/undefined/users/a_b_c/generateSsoUrl?api-version=2021-08-01") (lit "{}")]).
Proof.
  rewrite (getSharedAccessToken_unchecked env_token_only net_apim url_parse0 (lit "a_b_c") w0
             109 (lit "tok")
             (mk_url (apim_base env_token_only ++ lit "a_b_c" ++ lit "/generateSsoUrl?api-version=2021-08-01") [] [])
             200 (lit "{}") 1 [] eq_refl eq_refl ltac:(vm_compute; reflexivity) ltac:(lia)
             ltac:(vm_compute; reflexivity)).
  vm_compute. reflexivity.
Defined.



(** A state the delegation endpoint issues at time [t] (the base64 JSON of
    returnUrl, salt, userId and [t]) is accepted by the callback's
    freshness check exactly up to ten minutes: the callback answers 400
    "State parameter expired" if and only if more than 600000 ms have
    passed, and otherwise goes on (ending in a 500 or a 302). *)
Theorem delegation_state_freshness env net url_parse query w returnUrl salt userId t :
  opt_units_ok returnUrl -> opt_units_ok salt -> opt_units_ok userId -> Z.abs t < 10 ^ 21 ->
  truthy_str (query "code"%string) = true ->
  query "state"%string = Some (encode_state (mk_state returnUrl salt userId t)) ->
  (fst (callback env net url_parse query w) = Ok (fail_with 400 "State parameter expired")
   <-> clock w - t > 600000)
  /\ (clock w - t <= 600000 ->
      exists r, fst (callback env net url_parse query w) = Ok r /\ (status r = 500 \/ status r = 302)).
Proof.
  intros H1 H2 H3 H4 Hc Hq.
  assert (Hs : truthy_str (query "state"%string) = true) by (rewrite Hq; apply encode_state_truthy).
  assert (Hd : decode_state (js_str (query "state"%string))
               = Some (JObj (state_members (mk_state returnUrl salt userId t))))
    by (rewrite Hq; now apply decode_encode_state).
  pose proof (state_timestamp (mk_state returnUrl salt userId t)) as Ht. cbn [timestamp] in Ht.
  assert (Ex : expired (clock w) (Fin (mkdec t 0)) = (600000 <? clock w - t)).
  { unfold expired. change (10 ^ 0) with 1. rewrite Z.mul_1_r. reflexivity. }
  destruct (callback_checked env net url_parse query w _ _ _ Hc Hs Hd Ht eq_refl) as [Hx Hf].
  split.
  - rewrite (callback_expired_iff env net url_parse query w _ _ _ Hc Hs Hd Ht eq_refl), Ex.
    rewrite Z.ltb_lt. lia.
  - intros Hle. apply Hf. rewrite Ex. apply Z.ltb_ge. lia.
Qed.

Lemma delegation_state_freshness_witness :
  exists r, fst (callback env0 net0 url_parse0 (q_callback state_home) w0) = Ok r
    /\ (status r = 500 \/ status r = 302).
Proof.
  apply (proj2 (delegation_state_freshness env0 net0 url_parse0 (q_callback state_home) w0
                  (Some (lit "/home")) (Some (lit "s")) None 1000000
                  ltac:(apply units_ok_check; reflexivity) ltac:(apply units_ok_check; reflexivity) I
                  ltac:(lia) eq_refl eq_refl)).
  cbn. lia.
Defined.


